(** * Bassam Ultra-Answer: the request pipeline of [main.py]

    A shallow embedding of the single-endpoint backend: the link extractor
    ([URL_RE.findall]), the article fetcher ([fetch_url]), the prompt
    assembly inside [ask], the completion client ([call_openai]) and the
    request handler ([ask]) itself.

    Python [str] values are sequences of Unicode code points, so that
    slices such as [user[:500]] count characters and not bytes.  The
    outside world (HTTP, the readability / BeautifulSoup / markdownify
    libraries) is an oracle record; every effectful function threads a
    trace of the calls it made. *)

From Stdlib Require Import List NArith ZArith Bool Lia String Ascii DecimalString.
Import ListNotations.
Open Scope N_scope.

Set Implicit Arguments.
Set Warnings "-register-all".

(* ================================================================== *)
(** ** Python strings *)

(** A Python [str]: the list of its code points. *)
Definition pystr := list N.

Module Utf8.

(** Decoder used only to write the program's literals in this file:
    [need] continuation bytes are still expected, [acc] holds the bits
    read so far. *)
Fixpoint decode (bs : list N) (need : nat) (acc : N) : pystr :=
  match bs with
  | [] => []
  | b :: bs' =>
      match need with
      | O =>
          if b <? 128 then b :: decode bs' 0 0
          else if b <? 224 then decode bs' 1 (b - 192)
          else if b <? 240 then decode bs' 2 (b - 224)
          else decode bs' 3 (b - 240)
      | S O => (acc * 64 + (b - 128)) :: decode bs' 0 0
      | S k => decode bs' k (acc * 64 + (b - 128))
      end
  end.

Definition lit (s : string) : pystr :=
  decode (map N_of_ascii (list_ascii_of_string s)) 0 0.

End Utf8.

Definition lit : string -> pystr := Utf8.lit.

Definition NL : N := 10.
Definition SP : N := 32.
Definition TAB : N := 9.
Definition DQUOTE : N := 34.

Definition pystr_eqb (a b : pystr) : bool :=
  if list_eq_dec N.eq_dec a b then true else false.

(** [str.isspace] on one character, which is also what [\s] matches in a
    [str] pattern: the code points CPython classifies as whitespace. *)
Definition isspace (c : N) : bool :=
  ((9 <=? c) && (c <=? 13)) || ((28 <=? c) && (c <=? 32))
  || (c =? 133) || (c =? 160) || (c =? 5760)
  || ((8192 <=? c) && (c <=? 8202))
  || (c =? 8232) || (c =? 8233) || (c =? 8239) || (c =? 8287)
  || (c =? 12288).

Fixpoint lstrip (s : pystr) : pystr :=
  match s with
  | [] => []
  | c :: s' => if isspace c then lstrip s' else s
  end.

Definition rstrip (s : pystr) : pystr := rev (lstrip (rev s)).

(** [s.strip()] *)
Definition strip (s : pystr) : pystr := rstrip (lstrip s).

(** [l[:n]] on a string or a list *)
Definition slice_to {A} (n : nat) (l : list A) : list A := firstn n l.

(** [if s:] / [if not s:] on a string or a list *)
Definition truthy {A} (l : list A) : bool :=
  match l with [] => false | _ :: _ => true end.

(** [sep.join(parts)] *)
Fixpoint join (sep : pystr) (parts : list pystr) : pystr :=
  match parts with
  | [] => []
  | [p] => p
  | p :: ps => p ++ sep ++ join sep ps
  end.

(** [s.split("\n")]: never empty, the last piece is what follows the last
    newline. *)
Fixpoint lines (s : pystr) : list pystr :=
  match s with
  | [] => [[]]
  | c :: s' =>
      if c =? NL then [] :: lines s'
      else match lines s' with
           | l :: ls => (c :: l) :: ls
           | [] => [[c]]
           end
  end.

(** [needle in hay] *)
Fixpoint starts_with (p s : pystr) : bool :=
  match p, s with
  | [], _ => true
  | a :: p', b :: s' => (a =? b) && starts_with p' s'
  | _ :: _, [] => false
  end.

Fixpoint contains (hay needle : pystr) : bool :=
  starts_with needle hay ||
  match hay with
  | [] => false
  | _ :: hay' => contains hay' needle
  end.

(* ================================================================== *)
(** ** Link extractor: [URL_RE = re.compile(r"https?://\S+")] *)

Module URL_RE.

(** What follows a literal prefix, if the text starts with it. *)
Fixpoint after (p s : pystr) : option pystr :=
  match p, s with
  | [], _ => Some s
  | a :: p', b :: s' => if a =? b then after p' s' else None
  | _ :: _, [] => None
  end.

(** The greedy run [\S*]. *)
Fixpoint nonspace_run (s : pystr) : pystr :=
  match s with
  | [] => []
  | c :: s' => if isspace c then [] else c :: nonspace_run s'
  end.

(** [://\S+] matched at the head of [s]: the text it consumes. *)
Definition tail_match (s : pystr) : option pystr :=
  match after (lit "://") s with
  | Some b =>
      match nonspace_run b with
      | [] => None
      | run => Some (lit "://" ++ run)
      end
  | None => None
  end.

(** The whole pattern anchored at the head of [s].  [s?] is greedy: the
    engine first consumes an [s] and falls back to skipping it. *)
Definition match_here (s : pystr) : option pystr :=
  match after (lit "http") s with
  | None => None
  | Some r =>
      let without_s :=
        match tail_match r with
        | Some t => Some (lit "http" ++ t)
        | None => None
        end in
      match after (lit "s") r with
      | Some r' =>
          match tail_match r' with
          | Some t => Some (lit "https" ++ t)
          | None => without_s
          end
      | None => without_s
      end
  end.

(** The scan of [findall]: [skip] characters still belong to the match
    found last, the search resumes where that match ended. *)
Fixpoint scan (s : pystr) (skip : nat) : list pystr :=
  match s with
  | [] => []
  | _ :: s' =>
      match skip with
      | S k => scan s' k
      | O =>
          match match_here s with
          | Some m => m :: scan s' (List.length m - 1)
          | None => scan s' 0
          end
      end
  end.

(** [URL_RE.findall(text)] *)
Definition findall (text : pystr) : list pystr := scan text 0.

End URL_RE.

(* ================================================================== *)
(** ** [textwrap.dedent] *)

Module Textwrap.

(** The standard library's [dedent] (CPython up to 3.13), read line by
    line: its three regular expressions are all anchored with [^] in
    MULTILINE mode and none of them crosses a newline. *)

Definition is_blank_char (c : N) : bool := (c =? SP) || (c =? TAB).

(** [_whitespace_only_re = '^[ \t]+$'], substituted by the empty string. *)
Definition is_ws_only (l : pystr) : bool :=
  truthy l && forallb is_blank_char l.

Definition blank_line (l : pystr) : pystr :=
  if is_ws_only l then [] else l.

(** [_leading_whitespace_re]: the run of spaces and tabs at the start of
    a line, captured when a character other than space, tab and newline
    follows it; one indent per line that has such a character. *)
Fixpoint leading_ws (l : pystr) : pystr :=
  match l with
  | [] => []
  | c :: l' => if is_blank_char c then c :: leading_ws l' else []
  end.

Definition has_text (l : pystr) : bool :=
  existsb (fun c => negb (is_blank_char c)) l.

Fixpoint common_prefix (a b : pystr) : pystr :=
  match a, b with
  | x :: a', y :: b' => if x =? y then x :: common_prefix a' b' else []
  | _, _ => []
  end.

(** One turn of the loop over the indents. *)
Definition narrow (margin : option pystr) (indent : pystr) : option pystr :=
  match margin with
  | None => Some indent
  | Some m =>
      if starts_with m indent then Some m
      else if starts_with indent m then Some indent
      else Some (common_prefix m indent)
  end.

(** [re.sub(r'(?m)^' + margin, '', text)] on one line. *)
Definition cut_margin (m l : pystr) : pystr :=
  if starts_with m l then skipn (List.length m) l else l.

(** [_whitespace_only_re.sub('', text)] *)
Definition sub_ws_only (text : pystr) : pystr :=
  join [NL] (map blank_line (lines text)).

(** [_leading_whitespace_re.findall(text)] *)
Definition indents_of (text : pystr) : list pystr :=
  map leading_ws (filter has_text (lines text)).

Definition dedent (text : pystr) : pystr :=
  let text := sub_ws_only text in
  match fold_left narrow (indents_of text) None with
  | Some margin =>
      if truthy margin then join [NL] (map (cut_margin margin) (lines text))
      else text
  | None => text
  end.

End Textwrap.

(* ================================================================== *)
(** ** Values, exceptions, effects *)

(** A Python [float] as [json.loads] yields it: a finite one is kept as
    its [repr], which determines it and is what [json.dumps] prints; the
    literals NaN, Infinity and -Infinity are accepted too. *)
Inductive pyfloat : Type :=
| Finite (repr : pystr)
| NaN
| Infinity
| NegInfinity.

(** JSON values as Python sees them after [json.loads].  The fields of an
    object have distinct keys, in insertion order, as in a [dict]. *)
Inductive json : Type :=
| JNull
| JBool (b : bool)
| JInt (z : Z)
| JFloat (f : pyfloat)
| JStr (s : pystr)
| JArr (items : list json)
| JObj (fields : list (pystr * json)).

(** An instance of [Exception]: its class and [str(e)].  What is not an
    [Exception] (task cancellation, interpreter exit) is outside this
    model. *)
Record exn : Type := mkExn { exn_class : string; exn_str : pystr }.

Inductive result (A : Type) : Type :=
| Ok (a : A)
| Raise (e : exn).
Arguments Ok {A} a.
Arguments Raise {A} e.

Inductive role : Type := System | User.

(** [{"role": ..., "content": ...}] *)
Record Message : Type := mkMessage { msg_role : role; content : pystr }.

(** The JSON body posted to the completions endpoint. *)
Record Payload : Type := mkPayload {
  p_model : pystr;
  p_messages : list Message;
  p_temperature : Z * Z;
  p_top_p : Z * Z
}.

(** What a request does, in order: the calls into the program's own
    components and the HTTP requests that leave the process. *)
Inductive event : Type :=
| EFindall (text : pystr)
| EFetch (url : pystr)
| EGet (url : pystr)
| ECompletion (messages : list Message)
| EPost (url : pystr) (headers : list (pystr * pystr)) (payload : Payload).

Definition trace := list event.

(** An [httpx.Response]: status, decoded text, and what [r.json()] gives. *)
Record Response : Type := mkResponse {
  status_code : Z;
  text : pystr;
  json_body : result json
}.

(** The world outside the program.  The network answers as a function of
    everything the request did so far; the parsing libraries are
    functions of their input that may raise. *)
Record World : Type := mkWorld {
  (** [session.get(url, timeout=20, follow_redirects=True, headers=UA)] *)
  net_get : trace -> pystr -> result Response;
  (** [client.post(url, headers=..., json=payload, timeout=60)] *)
  net_post : trace -> pystr -> list (pystr * pystr) -> Payload -> result Response;
  (** the [HTTPStatusError] that [raise_for_status] builds *)
  http_status_error : Response -> exn;
  (** [Document(html).short_title()], [None] included *)
  doc_short_title : pystr -> result (option pystr);
  (** [Document(html).summary(html_partial=True)] *)
  doc_summary : pystr -> result pystr;
  (** [BeautifulSoup(content_html, "lxml")], the three tags decomposed,
      then [get_text("\n")] *)
  soup_get_text : pystr -> result pystr;
  (** [markdownify(text)] *)
  md : pystr -> result pystr
}.

(** Process-wide configuration read from the environment at start-up. *)
Record Config : Type := mkConfig {
  OPENAI_API_KEY : pystr;
  OPENAI_BASE_URL : pystr;
  OPENAI_MODEL : pystr
}.

(** A computation: from the trace so far to an outcome and the trace
    extended by what it did. *)
Definition M (A : Type) : Type := trace -> result A * trace.

Definition ret {A} (a : A) : M A := fun t => (Ok a, t).

Definition bind {A B} (m : M A) (f : A -> M B) : M B :=
  fun t =>
    match m t with
    | (Ok a, t') => f a t'
    | (Raise e, t') => (Raise e, t')
    end.

Definition lift {A} (r : result A) : M A := fun t => (r, t).

Definition emit (ev : event) : M unit := fun t => (Ok tt, t ++ [ev]).

(** [try: body / except Exception as e: handler e] *)
Definition try_except {A} (body : M A) (handler : exn -> M A) : M A :=
  fun t =>
    match body t with
    | (Ok a, t') => (Ok a, t')
    | (Raise e, t') => handler e t'
    end.

Notation "x <- m ;; k" := (bind m (fun x => k))
  (at level 61, m at next level, right associativity).
Notation "m ;;; k" := (bind m (fun _ => k))
  (at level 61, right associativity).

(** [await asyncio.gather] over the tasks: the results in the order of the
    tasks; the first exception, if any, is the outcome.  The tasks are
    run one after the other here, their interleaving is not modelled. *)
Fixpoint gather {A} (tasks : list (M A)) : M (list A) :=
  match tasks with
  | [] => ret []
  | m :: ms => x <- m ;; xs <- gather ms ;; ret (x :: xs)
  end.

(* ================================================================== *)
(** ** Python object protocol on JSON values *)

Definition type_name (v : json) : string :=
  match v with
  | JNull => "NoneType"
  | JBool _ => "bool"
  | JInt _ => "int"
  | JFloat _ => "float"
  | JStr _ => "str"
  | JArr _ => "list"
  | JObj _ => "dict"
  end.

Definition AttributeError (v : json) (attr : string) : exn :=
  mkExn "AttributeError"
    (lit ("'" ++ type_name v ++ "' object has no attribute '" ++ attr ++ "'")).

Definition KeyError (shown : string) : exn := mkExn "KeyError" (lit shown).
Definition IndexError (what : string) : exn :=
  mkExn "IndexError" (lit (what ++ " index out of range")).
Definition TypeError (msg : string) : exn := mkExn "TypeError" (lit msg).

Fixpoint lookup (k : pystr) (fields : list (pystr * json)) : option json :=
  match fields with
  | [] => None
  | (k', v) :: rest => if pystr_eqb k k' then Some v else lookup k rest
  end.

(** [d.get(key, default)] *)
Definition dict_get (d : json) (key : string) (default : json) : result json :=
  match d with
  | JObj fields =>
      match lookup (lit key) fields with
      | Some v => Ok v
      | None => Ok default
      end
  | _ => Raise (AttributeError d "get")
  end.

(** [v.strip()] *)
Definition py_strip (v : json) : result pystr :=
  match v with
  | JStr s => Ok (strip s)
  | _ => Raise (AttributeError v "strip")
  end.

(** [v[key]] for a string key *)
Definition getitem (v : json) (key : string) : result json :=
  match v with
  | JObj fields =>
      match lookup (lit key) fields with
      | Some x => Ok x
      | None => Raise (KeyError ("'" ++ key ++ "'"))
      end
  | JArr _ => Raise (TypeError "list indices must be integers or slices, not str")
  | JStr _ => Raise (TypeError "string indices must be integers, not 'str'")
  | _ => Raise (TypeError ("'" ++ type_name v ++ "' object is not subscriptable"))
  end.

(** [v[0]]; the keys of a parsed JSON object are strings, never [0]. *)
Definition getitem0 (v : json) : result json :=
  match v with
  | JArr (x :: _) => Ok x
  | JArr [] => Raise (IndexError "list")
  | JStr (c :: _) => Ok (JStr [c])
  | JStr [] => Raise (IndexError "string")
  | JObj _ => Raise (KeyError "0")
  | _ => Raise (TypeError ("'" ++ type_name v ++ "' object is not subscriptable"))
  end.

(** [v == "literal"] *)
Definition eq_str (v : json) (s : string) : bool :=
  match v with
  | JStr x => pystr_eqb x (lit s)
  | _ => false
  end.

(** [x or <empty string>] *)
Definition or_empty (x : option pystr) : pystr :=
  match x with
  | Some s => if truthy s then s else []
  | None => []
  end.

(* ================================================================== *)
(** ** [JSONResponse]: rendering a body *)

(** Modelled from Starlette, which is not part of the repository: the
    constructor of [JSONResponse] renders its content at once, with
    [json.dumps(content, ensure_ascii=False, allow_nan=False, indent=None,
    separators=(",", ":")).encode("utf-8")].  [dumps] raises [ValueError]
    on a float that is not finite; [encode] raises [UnicodeEncodeError] on
    a surrogate code point.  The text of the [ValueError] is the one of
    the C encoder of CPython up to 3.11, later versions append the float;
    no property below depends on it. *)

Definition surrogate (c : N) : bool := (55296 <=? c) && (c <=? 57343).


Definition hex_digit (n : N) : N := if n <? 10 then 48 + n else 87 + n.

Definition hex4 (c : N) : pystr :=
  [ hex_digit ((c / 4096) mod 16); hex_digit ((c / 256) mod 16);
    hex_digit ((c / 16) mod 16); hex_digit (c mod 16) ].

(** One character inside a JSON string, [ensure_ascii=False]. *)
Definition escape_char (c : N) : pystr :=
  if c =? 34 then [92; 34]
  else if c =? 92 then [92; 92]
  else if c =? 10 then [92; 110]
  else if c =? 13 then [92; 114]
  else if c =? 9 then [92; 116]
  else if c =? 8 then [92; 98]
  else if c =? 12 then [92; 102]
  else if c <? 32 then [92; 117] ++ hex4 c
  else [c].

Definition quote (s : pystr) : pystr :=
  [DQUOTE] ++ flat_map escape_char s ++ [DQUOTE].

Definition decimal (z : Z) : pystr := lit (NilZero.string_of_int (Z.to_int z)).

Definition float_text (f : pyfloat) : pystr :=
  match f with
  | Finite repr => repr
  | NaN => lit "NaN"
  | Infinity => lit "Infinity"
  | NegInfinity => lit "-Infinity"
  end.

(** The text [json.dumps] produces with the separators above. *)
Fixpoint dumps (v : json) : pystr :=
  match v with
  | JNull => lit "null"
  | JBool true => lit "true"
  | JBool false => lit "false"
  | JInt z => decimal z
  | JFloat f => float_text f
  | JStr s => quote s
  | JArr items => lit "[" ++ join (lit ",") (map dumps items) ++ lit "]"
  | JObj fields =>
      lit "{"
      ++ join (lit ",") (map (fun kv => quote (fst kv) ++ lit ":" ++ dumps (snd kv)) fields)
      ++ lit "}"
  end.

(** [allow_nan=False]: some float in the value is not finite. *)
Fixpoint has_nonfinite (v : json) : bool :=
  match v with
  | JFloat (Finite _) => false
  | JFloat _ => true
  | JArr items => existsb has_nonfinite items
  | JObj fields => existsb (fun kv => has_nonfinite (snd kv)) fields
  | _ => false
  end.

(** The length of the run of surrogates at the head of the text. *)
Fixpoint surrogate_run (s : pystr) : nat :=
  match s with
  | c :: s' => if surrogate c then S (surrogate_run s') else O
  | [] => O
  end.

(** Where the encoder stops: position of the first surrogate, the
    character, and the length of the run it starts. *)
Fixpoint first_surrogate (s : pystr) (pos : nat) : option (nat * N * nat) :=
  match s with
  | [] => None
  | c :: s' =>
      if surrogate c then Some (pos, c, S (surrogate_run s'))
      else first_surrogate s' (S pos)
  end.

Definition position (n : nat) : pystr := lit (NilZero.string_of_uint (Nat.to_uint n)).

Definition UnicodeEncodeError (pos : nat) (c : N) (run : nat) : exn :=
  mkExn "UnicodeEncodeError"
    (match run with
     | S O =>
         lit "'utf-8' codec can't encode character '\u" ++ hex4 c
         ++ lit "' in position " ++ position pos
     | _ =>
         lit "'utf-8' codec can't encode characters in position " ++ position pos
         ++ lit "-" ++ position (pos + run - 1)
     end ++ lit ": surrogates not allowed").

Definition ValueError (msg : string) : exn := mkExn "ValueError" (lit msg).

(** [JSONResponse(content)]: the response that carries the content, or
    the exception of its rendering. *)
Definition JSONResponse (content : json) : result json :=
  if has_nonfinite content then
    Raise (ValueError "Out of range float values are not JSON compliant")
  else
    match first_surrogate (dumps content) 0 with
    | Some (pos, c, run) => Raise (UnicodeEncodeError pos c run)
    | None => Ok content
    end.


(* ================================================================== *)
(** ** The program *)

(** The triple-quoted literal of [SYSTEM_PROMPT], line by line. *)
Definition SYSTEM_PROMPT_literal : pystr :=
  join [NL]
    [ [];
      lit "    أنت " ++ [DQUOTE] ++ lit "Bassam Ultra-Answer" ++ [DQUOTE]
        ++ lit " — مساعد عربي/إنجليزي خارق:";
      lit "    - تفهم السؤال مهما كان مختصرًا.";
      lit "    - تجيب بإيجاز أولاً، ثم تفاصيل عملية (خطوات/أمثلة/قوائم) عند الحاجة.";
      lit "    - تلخص النصوص بشكل دقيق، وتستخرج النقاط، والتعليمات.";
      lit "    - عند وجود روابط: تقرؤها أولًا وتستخلص أهم ما فيها قبل الإجابة.";
      lit "    - إن طلب المستخدم كودًا: أعطِ كودًا نظيفًا جاهزًا للتنفيذ مع شرح قصير.";
      lit "    - كن صريحًا عند عدم اليقين، واقترح طرق التحقق.";
      lit "    - الأسلوب: بسيط، عملي، بدون زخرفة.";
      lit "    " ].

Definition SYSTEM_PROMPT : pystr := strip SYSTEM_PROMPT_literal.

Definition FETCH_FAILED_PREFIX : pystr := lit "(تعذر جلب الرابط: ".

(** [r.raise_for_status()].
    Modelled from the spec: httpx is not part of the repository; the call
    raises on any status outside 200..299 and returns otherwise. *)
Definition is_success (r : Response) : bool :=
  ((200 <=? status_code r) && (status_code r <=? 299))%Z.

Definition raise_for_status (w : World) (r : Response) : M unit :=
  if is_success r then ret tt else lift (Raise (http_status_error w r)).

Definition session_get (w : World) (url : pystr) : M Response :=
  fun t => (net_get w t url, t ++ [EGet url]).

Definition client_post (w : World) (url : pystr)
    (headers : list (pystr * pystr)) (payload : Payload) : M Response :=
  fun t => (net_post w t url headers payload, t ++ [EPost url headers payload]).

(** [fetch_url(session, url)] *)
Definition fetch_url (w : World) (url : pystr) : M pystr :=
  emit (EFetch url) ;;;
  try_except
    (r <- session_get w url ;;
     raise_for_status w r ;;;
     let html := text r in
     short <- lift (doc_short_title w html) ;;
     let title := or_empty short in
     content_html <- lift (doc_summary w html) ;;
     txt <- lift (soup_get_text w content_html) ;;
     content_md <- lift (md w txt) ;;
     ret (lit "# " ++ title ++ [NL; NL] ++ strip content_md))
    (fun e => ret (FETCH_FAILED_PREFIX ++ exn_str e ++ lit ")")).

(** [next((m["content"] for m in messages if m["role"] == "user"), ...)]
    with the empty string as default *)
Fixpoint first_user_content (messages : list Message) : pystr :=
  match messages with
  | [] => []
  | m :: rest =>
      match msg_role m with
      | User => content m
      | System => first_user_content rest
      end
  end.

(** The f-string handed to [textwrap.dedent] in the keyless branch: its
    three literal parts, with the escapes resolved, around the two
    interpolations. *)
Definition PLAN_OPENING : pystr :=
  [NL]
  ++ lit "        (تشغيل مبسط بدون API)" ++ [NL] ++ [NL]
  ++ lit "        فهمي للسؤال:" ++ [NL]
  ++ lit "- ".

Definition PLAN_MIDDLE : pystr :=
  [NL; NL]
  ++ lit "خطة إجابة عامة:" ++ [NL]
  ++ lit "1) تحديد المطلوب بدقة." ++ [NL]
  ++ lit "2) عرض النقاط الأساسية بإيجاز." ++ [NL]
  ++ lit "3) إعطاء خطوات عملية قابلة للتنفيذ." ++ [NL]
  ++ lit "4) اقتراح مصادر للتحقق." ++ [NL; NL]
  ++ lit "الإجابة المختصرة:" ++ [NL]
  ++ lit "- ".

Definition PLAN_CLOSING : pystr :=
  lit " — يتطلب تفصيلاً حسب السياق." ++ [NL]
  ++ lit "        ".

Definition plan_text (user : pystr) : pystr :=
  PLAN_OPENING ++ slice_to 500 user ++ PLAN_MIDDLE ++ slice_to 200 user ++ PLAN_CLOSING.

Definition completions_url (cfg : Config) : pystr :=
  OPENAI_BASE_URL cfg ++ lit "/chat/completions".

Definition completions_headers (cfg : Config) : list (pystr * pystr) :=
  [ (lit "Authorization", lit "Bearer " ++ OPENAI_API_KEY cfg);
    (lit "Content-Type", lit "application/json") ].

Definition completions_payload (model : pystr) (messages : list Message) : Payload :=
  {| p_model := model;
     p_messages := messages;
     p_temperature := (3, -1)%Z;
     p_top_p := (9, -1)%Z |}.

(** [call_openai(messages, model)] *)
Definition call_openai (w : World) (cfg : Config)
    (messages : list Message) (model : pystr) : M pystr :=
  emit (ECompletion messages) ;;;
  if negb (truthy (OPENAI_API_KEY cfg)) then
    let user := first_user_content messages in
    let plan := Textwrap.dedent (plan_text user) in
    ret (strip plan)
  else
    r <- client_post w (completions_url cfg) (completions_headers cfg)
           (completions_payload model messages) ;;
    raise_for_status w r ;;;
    data <- lift (json_body r) ;;
    choices <- lift (getitem data "choices") ;;
    choice <- lift (getitem0 choices) ;;
    message <- lift (getitem choice "message") ;;
    c <- lift (getitem message "content") ;;
    lift (py_strip c).

(** [URL_RE.findall(query)] as a step of the handler. *)
Definition find_urls (query : pystr) : M (list pystr) :=
  emit (EFindall query) ;;; ret (URL_RE.findall query).

(** Step 1 of the handler: fetch at most three of the links. *)
Definition gather_contexts (w : World) (urls : list pystr) : M (list pystr) :=
  if truthy urls then gather (map (fetch_url w) (slice_to 3 urls))
  else ret [].

Definition CONTEXT_INSTRUCTION : pystr :=
  lit "السياق التالي جُمِع من الروابط التي أرسلها المستخدم. لخصه ثم أجب بدقة على سؤال المستخدم."
  ++ [NL; NL].

Definition SUMMARIZE_INSTRUCTION : pystr :=
  lit "لخص بدقة وبنقاط واضحة:" ++ [NL; NL].

Definition CODE_INSTRUCTION : pystr :=
  lit "اكتب كودًا نظيفًا مع شرح مختصر لحل المطلوب:" ++ [NL; NL].

(** The content of the user message for a mode. *)
Definition user_content (mode : json) (query : pystr) : pystr :=
  if eq_str mode "summarize" then SUMMARIZE_INSTRUCTION ++ query
  else if eq_str mode "code" then CODE_INSTRUCTION ++ query
  else query.

(** Step 2 of the handler: the messages for the model. *)
Definition build_messages (gathered_contexts : list pystr)
    (mode : json) (query : pystr) : list Message :=
  let messages := [mkMessage System SYSTEM_PROMPT] in
  let messages :=
    if truthy gathered_contexts then
      let ctx := join [NL; NL] gathered_contexts in
      messages ++ [mkMessage System (CONTEXT_INSTRUCTION ++ ctx)]
    else messages in
  messages ++ [mkMessage User (user_content mode query)].

Definition EMPTY_QUERY_ANSWER : pystr := lit "اكتب سؤالك…".

Definition provider (cfg : Config) : pystr :=
  if truthy (OPENAI_API_KEY cfg) then lit "openai-compatible"
  else lit "fallback-local".

(** [ask(req)], on the parsed body of the request. *)
Definition ask (w : World) (cfg : Config) (body : json) : M json :=
  q <- lift (dict_get body "query" (JStr [])) ;;
  query <- lift (py_strip q) ;;
  mode <- lift (dict_get body "mode" (JStr (lit "auto"))) ;;
  if negb (truthy query) then
    lift (JSONResponse (JObj [ (lit "ok", JBool true);
                               (lit "answer", JStr EMPTY_QUERY_ANSWER) ]))
  else
    urls <- find_urls query ;;
    gathered_contexts <- gather_contexts w urls ;;
    let messages := build_messages gathered_contexts mode query in
    answer <- call_openai w cfg messages (OPENAI_MODEL cfg) ;;
    lift (JSONResponse
            (JObj [ (lit "ok", JBool true);
                    (lit "answer", JStr answer);
                    (lit "meta", JObj [ (lit "urls", JArr (map JStr urls));
                                        (lit "mode", mode);
                                        (lit "provider", JStr (provider cfg)) ]) ])).

(** Observations on traces and responses. *)
Definition is_post (ev : event) : bool :=
  match ev with EPost _ _ _ => true | _ => false end.

Fixpoint fetched (t : trace) : list pystr :=
  match t with
  | [] => []
  | EFetch u :: t' => u :: fetched t'
  | _ :: t' => fetched t'
  end.

Fixpoint requested (t : trace) : list pystr :=
  match t with
  | [] => []
  | EGet u :: t' => u :: requested t'
  | _ :: t' => requested t'
  end.

(** [resp["meta"][key]] of a handler response, when present. *)
Definition meta_field (resp : json) (key : string) : option json :=
  match resp with
  | JObj fields =>
      match lookup (lit "meta") fields with
      | Some (JObj meta) => lookup (lit key) meta
      | _ => None
      end
  | _ => None
  end.

Definition field (resp : json) (key : string) : option json :=
  match resp with
  | JObj fields => lookup (lit key) fields
  | _ => None
  end.

(** The events of one call of [fetch_url]. *)
Definition fetch_events (urls : list pystr) : trace :=
  flat_map (fun u => [EFetch u; EGet u]) urls.

(** [body.get("mode", "auto")] on the fields of the body. *)
Definition mode_of (fields : list (pystr * json)) : json :=
  match lookup (lit "mode") fields with
  | Some v => v
  | None => JStr (lit "auto")
  end.

(** The body of a successful, non-empty request. *)
Definition answer_body (cfg : Config) (urls : list pystr) (mode : json)
    (answer : pystr) : json :=
  JObj [ (lit "ok", JBool true);
         (lit "answer", JStr answer);
         (lit "meta", JObj [ (lit "urls", JArr (map JStr urls));
                             (lit "mode", mode);
                             (lit "provider", JStr (provider cfg)) ]) ].

(** The events of [call_openai] after its entry: one POST when a
    credential is configured, none otherwise. *)
Definition post_events (cfg : Config) (model : pystr) (messages : list Message) : trace :=
  if truthy (OPENAI_API_KEY cfg) then
    [EPost (completions_url cfg) (completions_headers cfg)
       (completions_payload model messages)]
  else [].

(** How the completions endpoint fails, if it does, when it is called
    with these messages after the history [t]. *)
Definition completion_failure (w : World) (cfg : Config) (model : pystr)
    (messages : list Message) (t : trace) : option exn :=
  match net_post w (t ++ [ECompletion messages]) (completions_url cfg)
          (completions_headers cfg) (completions_payload model messages) with
  | Raise e => Some e
  | Ok r => if is_success r then None else Some (http_status_error w r)
  end.

(** How the try block of [fetch_url] fails, if it does, when the GET is
    issued after the history [t]. *)
Definition fetch_failure (w : World) (url : pystr) (t : trace) : option exn :=
  match net_get w t url with
  | Raise e => Some e
  | Ok r =>
      if is_success r then
        match doc_short_title w (text r) with
        | Raise e => Some e
        | Ok _ =>
            match doc_summary w (text r) with
            | Raise e => Some e
            | Ok content_html =>
                match soup_get_text w content_html with
                | Raise e => Some e
                | Ok txt =>
                    match md w txt with
                    | Raise e => Some e
                    | Ok _ => None
                    end
                end
            end
        end
      else Some (http_status_error w r)
  end.

Definition no_space (s : pystr) : bool := forallb (fun c => negb (isspace c)) s.

Definition no_leading_space (s : pystr) : bool :=
  match s with
  | [] => true
  | c :: _ => negb (isspace c)
  end.

Definition no_trailing_space (s : pystr) : bool := no_leading_space (rev s).

(** The three shapes the prompt can take. *)
Definition persona : Message := mkMessage System SYSTEM_PROMPT.

Definition context_message (ctxs : list pystr) : Message :=
  mkMessage System (CONTEXT_INSTRUCTION ++ join [NL; NL] ctxs).

Definition PROMPT_FOR_INPUT : json :=
  JObj [ (lit "ok", JBool true); (lit "answer", JStr EMPTY_QUERY_ANSWER) ].


(** The fields of a body with its query set to [q]. *)
Definition with_query (q : pystr) (fields : list (pystr * json)) : list (pystr * json) :=
  (lit "query", JStr q) :: fields.

(** The keyless answer around its two echoes of the user message: the
    literal parts of the plan without the whitespace at both ends. *)
Definition ANSWER_HEAD : pystr := lstrip PLAN_OPENING.
Definition ANSWER_MID : pystr := PLAN_MIDDLE.
Definition ANSWER_TAIL : pystr := rstrip PLAN_CLOSING.

(** A line that starts with a character other than space and tab. *)
Definition flush_left (l : pystr) : bool :=
  Textwrap.has_text l && negb (truthy (Textwrap.leading_ws l)).



(** ** Sample configurations and worlds *)

(** The defaults of [os.getenv] for the base URL and the model. *)
Definition config_with_key (key : pystr) : Config :=
  {| OPENAI_API_KEY := key;
     OPENAI_BASE_URL := lit "https://api.openai.com/v1";
     OPENAI_MODEL := lit "gpt-4o-mini" |}.

Definition no_key : Config := config_with_key [].
Definition some_key : Config := config_with_key (lit "sk-test").

Definition ConnectError : exn :=
  mkExn "ConnectError" (lit "All connection attempts failed").

Definition status_error_of (r : Response) : exn :=
  mkExn "HTTPStatusError"
    (if (status_code r <? 500)%Z then lit "Client error" else lit "Server error").

(** No network at all; the parsing libraries behave as identities. *)
Definition offline : World :=
  {| net_get := fun _ _ => Raise ConnectError;
     net_post := fun _ _ _ _ => Raise ConnectError;
     http_status_error := status_error_of;
     doc_short_title := fun _ => Ok None;
     doc_summary := fun html => Ok html;
     soup_get_text := fun html => Ok html;
     md := fun txt => Ok txt |}.

Definition completion_reply (answer : pystr) : json :=
  JObj [ (lit "choices",
          JArr [ JObj [ (lit "message",
                         JObj [ (lit "role", JStr (lit "assistant"));
                                (lit "content", JStr answer) ]) ] ]) ].

(** Pages load; the completions endpoint answers with [status] and, when
    asked for JSON, with a well-formed reply. *)
Definition online (status : Z) : World :=
  {| net_get := fun _ url =>
       Ok (mkResponse 200 (lit "page of " ++ url) (Raise (mkExn "JSONDecodeError" (lit "Expecting value"))));
     net_post := fun _ _ _ _ =>
       Ok (mkResponse status [] (Ok (completion_reply (lit " fine "))));
     http_status_error := status_error_of;
     doc_short_title := fun _ => Ok (Some (lit "Title"));
     doc_summary := fun html => Ok html;
     soup_get_text := fun html => Ok html;
     md := fun txt => Ok txt |}.

(** Pages answer 404. *)
Definition not_found : World :=
  {| net_get := fun _ _ => Ok (mkResponse 404 [] (Raise (mkExn "JSONDecodeError" (lit "Expecting value"))));
     net_post := fun _ _ _ _ => Raise ConnectError;
     http_status_error := status_error_of;
     doc_short_title := fun _ => Ok None;
     doc_summary := fun html => Ok html;
     soup_get_text := fun html => Ok html;
     md := fun txt => Ok txt |}.

Definition request (query : pystr) (mode : option json) : json :=
  JObj ((lit "query", JStr query) ::
        match mode with
        | Some m => [(lit "mode", m)]
        | None => []
        end).

(** ** Further observations *)



(** The string a single [fetch_url] returns when nothing was done before. *)
Definition fetch_result (w : World) (url : pystr) : pystr :=
  match fst (fetch_url w url []) with
  | Ok s => s
  | Raise _ => []
  end.

(** The network answers a GET the same way whatever happened before. *)
Definition history_free (w : World) : Prop :=
  forall h h' url, net_get w h url = net_get w h' url.

Definition posts (t : trace) : trace := filter is_post t.

(** What [call_openai] reads out of a 2xx reply:
    [r.json()["choices"][0]["message"]["content"].strip()]. *)
Definition reply_text (r : Response) : result pystr :=
  match json_body r with
  | Raise e => Raise e
  | Ok data =>
      match getitem data "choices" with
      | Raise e => Raise e
      | Ok choices =>
          match getitem0 choices with
          | Raise e => Raise e
          | Ok choice =>
              match getitem choice "message" with
              | Raise e => Raise e
              | Ok message =>
                  match getitem message "content" with
                  | Raise e => Raise e
                  | Ok c => py_strip c
                  end
              end
          end
      end
  end.

(** The POST of a request with these messages. *)
Definition completion_post (cfg : Config) (messages : list Message) : event :=
  EPost (completions_url cfg) (completions_headers cfg)
    (completions_payload (OPENAI_MODEL cfg) messages).

(** Pages load; the completions endpoint answers 200 with this JSON. *)
Definition replying (reply : json) : World :=
  {| net_get := fun _ url => Ok (mkResponse 200 url (Ok JNull));
     net_post := fun _ _ _ _ => Ok (mkResponse 200 [] (Ok reply));
     http_status_error := status_error_of;
     doc_short_title := fun _ => Ok (Some (lit "Title"));
     doc_summary := fun html => Ok html;
     soup_get_text := fun html => Ok html;
     md := fun txt => Ok txt |}.

(** The longest keyless answer: the literal parts and the two slices. *)
Definition ANSWER_LIMIT : nat :=
  List.length PLAN_OPENING + 500 + List.length PLAN_MIDDLE + 200
  + List.length PLAN_CLOSING.

(* ================================================================== *)
(** * Properties *)

Arguments lit : simpl never.

Section Examples.

Example findall_two :
  URL_RE.findall
    (lit "see http://a.b/c, and https://x.y z https:// http://")
  = [lit "http://a.b/c,"; lit "https://x.y"].
Proof. vm_compute. reflexivity. Qed.

Example findall_glued :
  URL_RE.findall (lit "http://a.bhttps://c.d") = [lit "http://a.bhttps://c.d"].
Proof. vm_compute. reflexivity. Qed.

Example strip_both_ends : strip (NL :: lit "  hi there " ++ [TAB]) = lit "hi there".
Proof. vm_compute. reflexivity. Qed.

Example dedent_common_margin :
  Textwrap.dedent (lit "  a" ++ [NL] ++ lit "   b" ++ [NL] ++ lit " ")
  = lit "a" ++ [NL] ++ lit " b" ++ [NL].
Proof. vm_compute. reflexivity. Qed.

End Examples.

(** ** The article fetcher and the fan-out *)

Lemma fetch_url_total (w : World) (url : pystr) (t : trace) :
  exists s, fetch_url w url t = (Ok s, t ++ [EFetch url; EGet url]).
Proof.
  unfold fetch_url, bind, emit, try_except, session_get, raise_for_status, ret.
  rewrite <- app_assoc. cbn [app].
  destruct (net_get w (t ++ [EFetch url]) url) as [r | e]; [ | eauto ].
  destruct (is_success r); cbn; [ | eauto ].
  unfold lift.
  destruct (doc_short_title w (text r)); [ | eauto ].
  destruct (doc_summary w (text r)); [ | eauto ].
  destruct (soup_get_text w _); [ | eauto ].
  destruct (md w _); eauto.
Qed.

Lemma gather_fetch_total (w : World) (urls : list pystr) :
  forall t, exists ctxs,
    gather (map (fetch_url w) urls) t = (Ok ctxs, t ++ fetch_events urls)
    /\ List.length ctxs = List.length urls.
Proof.
  induction urls as [ | u urls IH ]; intros t; cbn [map gather fetch_events flat_map].
  - exists []. rewrite app_nil_r. split; reflexivity.
  - destruct (fetch_url_total w u t) as [s Hs].
    destruct (IH (t ++ [EFetch u; EGet u])) as [ctxs [Hg Hl]].
    exists (s :: ctxs). unfold bind at 1. rewrite Hs.
    unfold bind at 1. rewrite Hg. unfold ret.
    split; [ rewrite <- app_assoc; reflexivity | cbn [List.length]; congruence ].
Qed.

Lemma gather_contexts_total (w : World) (urls : list pystr) (t : trace) :
  exists ctxs,
    gather_contexts w urls t = (Ok ctxs, t ++ fetch_events (slice_to 3 urls))
    /\ List.length ctxs = List.length (slice_to 3 urls).
Proof.
  unfold gather_contexts. destruct urls as [ | u urls ].
  - exists []. cbn. rewrite app_nil_r. split; reflexivity.
  - cbn [truthy]. apply gather_fetch_total.
Qed.

(** ** The handler, step by step *)

Lemma ask_empty (w : World) (cfg : Config) (fields : list (pystr * json))
    (q : pystr) (t : trace) :
  dict_get (JObj fields) "query" (JStr []) = Ok (JStr q) ->
  strip q = [] ->
  ask w cfg (JObj fields) t
  = (Ok (JObj [ (lit "ok", JBool true); (lit "answer", JStr EMPTY_QUERY_ANSWER) ]), t).
Proof.
  intros Hq Hs. unfold ask, bind, lift. rewrite Hq. cbn [py_strip]. rewrite Hs.
  unfold dict_get. cbn [truthy negb].
  replace (JSONResponse (JObj [ (lit "ok", JBool true);
                                (lit "answer", JStr EMPTY_QUERY_ANSWER) ]))
    with (Ok (JObj [ (lit "ok", JBool true); (lit "answer", JStr EMPTY_QUERY_ANSWER) ]))
    by (vm_compute; reflexivity).
  destruct (lookup (lit "mode") fields); reflexivity.
Qed.

Lemma ask_steps (w : World) (cfg : Config) (fields : list (pystr * json))
    (q : pystr) (t : trace) :
  dict_get (JObj fields) "query" (JStr []) = Ok (JStr q) ->
  strip q <> [] ->
  let query := strip q in
  let urls := URL_RE.findall query in
  let mode := mode_of fields in
  exists ctxs,
    gather_contexts w urls (t ++ [EFindall query])
    = (Ok ctxs, t ++ EFindall query :: fetch_events (slice_to 3 urls))
    /\ List.length ctxs = List.length (slice_to 3 urls)
    /\ ask w cfg (JObj fields) t
       = match call_openai w cfg (build_messages ctxs mode query) (OPENAI_MODEL cfg)
                 (t ++ EFindall query :: fetch_events (slice_to 3 urls)) with
         | (Ok answer, t') => (JSONResponse (answer_body cfg urls mode answer), t')
         | (Raise e, t') => (Raise e, t')
         end.
Proof.
  intros Hq Hs query urls mode.
  destruct (gather_contexts_total w urls (t ++ [EFindall query])) as [ctxs [Hg Hl]].
  rewrite <- app_assoc in Hg. cbn [app] in Hg.
  exists ctxs. split; [ exact Hg | split; [ exact Hl | ] ].
  unfold ask, bind at 1, lift at 1. rewrite Hq.
  unfold bind at 1, lift at 1. cbn [py_strip]. fold query.
  assert (Hm : dict_get (JObj fields) "mode" (JStr (lit "auto")) = Ok mode).
  { unfold mode, mode_of, dict_get.
    destruct (lookup (lit "mode") fields); reflexivity. }
  unfold bind at 1, lift at 1. rewrite Hm.
  destruct (truthy query) eqn:Ht.
  2:{ exfalso. apply Hs. fold query. destruct query; [ reflexivity | discriminate ]. }
  cbn [negb].
  unfold bind at 1, find_urls, bind at 1, emit, ret at 1.
  fold urls. unfold bind at 1. rewrite Hg.
  unfold bind at 1, answer_body, lift.
  destruct (call_openai _ _ _ _ _) as [[a | e] t']; reflexivity.
Qed.

(** ** Strings *)



Lemma lstrip_spaces (s : pystr) : forallb isspace s = true -> lstrip s = [].
Proof.
  induction s as [ | c s IH ]; cbn [forallb lstrip]; [ reflexivity | ].
  intros H. apply andb_true_iff in H as [Hc Hs]. rewrite Hc. auto.
Qed.

Lemma strip_spaces (s : pystr) : forallb isspace s = true -> strip s = [].
Proof.
  intros H. unfold strip. rewrite (lstrip_spaces s H). reflexivity.
Qed.

Lemma lookup_dict_get (fields : list (pystr * json)) (k : string) (v d : json) :
  lookup (lit k) fields = Some v -> dict_get (JObj fields) k d = Ok v.
Proof. intros H. unfold dict_get. rewrite H. reflexivity. Qed.

Lemma lookup_absent_dict_get (fields : list (pystr * json)) (k : string) (d : json) :
  lookup (lit k) fields = None -> dict_get (JObj fields) k d = Ok d.
Proof. intros H. unfold dict_get. rewrite H. reflexivity. Qed.

(** ** The completion client *)


Lemma call_openai_trace (w : World) (cfg : Config) (msgs : list Message)
    (model : pystr) (t : trace) :
  exists r,
    call_openai w cfg msgs model t
    = (r, t ++ ECompletion msgs :: post_events cfg model msgs).
Proof.
  unfold call_openai, post_events, bind at 1, emit.
  destruct (truthy (OPENAI_API_KEY cfg)); cbn [negb].
  - unfold bind at 1, client_post. rewrite <- app_assoc. cbn [app].
    destruct (net_post w _ _ _ _) as [r | e]; [ | eauto ].
    unfold bind at 1, raise_for_status.
    destruct (is_success r); [ | unfold lift; eauto ].
    unfold ret at 1, bind, lift.
    destruct (json_body r) as [d | ]; [ | eauto ].
    destruct (getitem d "choices") as [c | ]; [ | eauto ].
    destruct (getitem0 c) as [c0 | ]; [ | eauto ].
    destruct (getitem c0 "message") as [m | ]; [ | eauto ].
    destruct (getitem m "content") as [x | ]; eauto.
  - unfold ret. eauto.
Qed.

Lemma call_openai_keyless (w : World) (cfg : Config) (msgs : list Message)
    (model : pystr) (t : trace) :
  truthy (OPENAI_API_KEY cfg) = false ->
  call_openai w cfg msgs model t
  = (Ok (strip (Textwrap.dedent (plan_text (first_user_content msgs)))),
     t ++ [ECompletion msgs]).
Proof.
  intros H. unfold call_openai, bind, emit. rewrite H. reflexivity.
Qed.

Lemma call_openai_failure (w : World) (cfg : Config) (msgs : list Message)
    (model : pystr) (t : trace) (e : exn) :
  truthy (OPENAI_API_KEY cfg) = true ->
  completion_failure w cfg model msgs t = Some e ->
  call_openai w cfg msgs model t
  = (Raise e, t ++ ECompletion msgs :: post_events cfg model msgs).
Proof.
  intros Hk Hf. unfold call_openai, post_events, bind at 1, emit.
  rewrite Hk. cbn [negb]. unfold bind at 1, client_post.
  rewrite <- app_assoc. cbn [app].
  unfold completion_failure in Hf.
  destruct (net_post w _ _ _ _) as [r | e'];
    [ | injection Hf as ->; reflexivity ].
  unfold bind at 1, raise_for_status.
  destruct (is_success r); [ discriminate | ].
  injection Hf as <-. reflexivity.
Qed.

(** ** Traces *)

Lemma fetched_app (a b : trace) : fetched (a ++ b) = fetched a ++ fetched b.
Proof.
  induction a as [ | ev a IH ]; [ reflexivity | ].
  destruct ev; cbn; rewrite IH; reflexivity.
Qed.

Lemma requested_app (a b : trace) : requested (a ++ b) = requested a ++ requested b.
Proof.
  induction a as [ | ev a IH ]; [ reflexivity | ].
  destruct ev; cbn; rewrite IH; reflexivity.
Qed.

Lemma fetched_fetch_events (urls : list pystr) : fetched (fetch_events urls) = urls.
Proof.
  induction urls as [ | u urls IH ]; [ reflexivity | cbn; f_equal; exact IH ].
Qed.

Lemma requested_fetch_events (urls : list pystr) : requested (fetch_events urls) = urls.
Proof.
  induction urls as [ | u urls IH ]; [ reflexivity | cbn; f_equal; exact IH ].
Qed.

Lemma fetched_post_events cfg model msgs : fetched (post_events cfg model msgs) = [].
Proof. unfold post_events. destruct (truthy _); reflexivity. Qed.

Lemma requested_post_events cfg model msgs : requested (post_events cfg model msgs) = [].
Proof. unfold post_events. destruct (truthy _); reflexivity. Qed.

(** The whole run of the handler on a non-empty query. *)
Lemma ask_run (w : World) (cfg : Config) (fields : list (pystr * json))
    (q : pystr) (t : trace) :
  dict_get (JObj fields) "query" (JStr []) = Ok (JStr q) ->
  strip q <> [] ->
  let query := strip q in
  let urls := URL_RE.findall query in
  let mode := mode_of fields in
  exists ctxs r,
    gather_contexts w urls (t ++ [EFindall query])
    = (Ok ctxs, t ++ EFindall query :: fetch_events (slice_to 3 urls))
    /\ List.length ctxs = List.length (slice_to 3 urls)
    /\ ask w cfg (JObj fields) t
       = (r, t ++ EFindall query :: fetch_events (slice_to 3 urls)
               ++ ECompletion (build_messages ctxs mode query)
               :: post_events cfg (OPENAI_MODEL cfg) (build_messages ctxs mode query))
    /\ ((exists answer, r = JSONResponse (answer_body cfg urls mode answer))
        \/ (truthy (OPENAI_API_KEY cfg) = true /\ exists e, r = Raise e)).
Proof.
  intros Hq Hs query urls mode.
  destruct (ask_steps w cfg fields t Hq Hs) as [ctxs [Hg [Hl Ha]]].
  fold query urls mode in Hg, Hl, Ha.
  exists ctxs.
  destruct (call_openai_trace w cfg (build_messages ctxs mode query) (OPENAI_MODEL cfg)
              (t ++ EFindall query :: fetch_events (slice_to 3 urls))) as [r Hc].
  pose proof (call_openai_keyless w cfg (build_messages ctxs mode query) (OPENAI_MODEL cfg)
              (t ++ EFindall query :: fetch_events (slice_to 3 urls))) as Hk.
  rewrite Hc in Ha. rewrite <- app_assoc in Ha. cbn [app] in Ha.
  destruct r as [a | e].
  - exists (JSONResponse (answer_body cfg urls mode a)).
    split; [ exact Hg | split; [ exact Hl | split; [ exact Ha | ] ] ].
    left. exists a. reflexivity.
  - exists (Raise e).
    split; [ exact Hg | split; [ exact Hl | split; [ exact Ha | ] ] ].
    right. split; [ | exists e; reflexivity ].
    destruct (truthy (OPENAI_API_KEY cfg)); [ reflexivity | ].
    rewrite Hk in Hc by reflexivity. discriminate.
Qed.

Lemma JSONResponse_inv (content resp : json) :
  JSONResponse content = Ok resp -> resp = content.
Proof.
  unfold JSONResponse. destruct (has_nonfinite content); [ discriminate | ].
  destruct (first_surrogate (dumps content) 0) as [ [[pos c] run] | ];
    [ discriminate | ].
  intros H. injection H as <-. reflexivity.
Qed.

Lemma ask_run_response (cfg : Config) (urls : list pystr) (mode : json)
    (r : result json) (resp : json) :
  (exists answer, r = JSONResponse (answer_body cfg urls mode answer))
  \/ (truthy (OPENAI_API_KEY cfg) = true /\ exists e, r = Raise e) ->
  r = Ok resp ->
  exists answer, resp = answer_body cfg urls mode answer.
Proof.
  intros [ [answer Hr] | [_ [e Hr]] ] E; rewrite E in Hr; [ | discriminate ].
  exists answer. apply JSONResponse_inv. symmetry. exact Hr.
Qed.

(* ================================================================== *)
(** * The claims *)

Lemma fetch_url_outcome (w : World) (url : pystr) (t : trace) :
  exists s,
    fetch_url w url t = (Ok s, t ++ [EFetch url; EGet url])
    /\ match fetch_failure w url (t ++ [EFetch url]) with
       | Some e => s = FETCH_FAILED_PREFIX ++ exn_str e ++ lit ")"
       | None => starts_with (lit "# ") s = true
       end.
Proof.
  unfold fetch_url, fetch_failure, bind, emit, try_except, session_get,
    raise_for_status, ret.
  rewrite <- app_assoc. cbn [app].
  destruct (net_get w (t ++ [EFetch url]) url) as [r | e]; [ | eauto ].
  destruct (is_success r); cbn; [ | eauto ].
  unfold lift.
  destruct (doc_short_title w (text r)); [ | eauto ].
  destruct (doc_summary w (text r)); [ | eauto ].
  destruct (soup_get_text w _); [ | eauto ].
  destruct (md w _); eauto.
Qed.

Lemma starts_with_app (p x : pystr) : starts_with p (p ++ x) = true.
Proof.
  induction p as [ | c p IH ]; [ reflexivity | ].
  cbn [app starts_with]. rewrite N.eqb_refl. exact IH.
Qed.

Lemma gather_all_failed (w : World) (urls : list pystr) :
  (forall h u, fetch_failure w u h <> None) ->
  forall t ctxs t',
    gather (map (fetch_url w) urls) t = (Ok ctxs, t') ->
    Forall (fun c => starts_with FETCH_FAILED_PREFIX c = true) ctxs.
Proof.
  intros Hf. induction urls as [ | u urls IH ]; intros t ctxs t' Hg.
  - cbn in Hg. unfold ret in Hg. injection Hg as <- _. constructor.
  - cbn [map gather] in Hg. unfold bind at 1 in Hg.
    destruct (fetch_url_outcome w u t) as (s & Hs & Hm). rewrite Hs in Hg.
    unfold bind at 1 in Hg.
    destruct (gather (map (fetch_url w) urls) (t ++ [EFetch u; EGet u]))
      as [[cs | e] t2] eqn:E; [ | discriminate ].
    unfold ret in Hg. injection Hg as <- _.
    constructor; [ | exact (IH _ _ _ E) ].
    specialize (Hf (t ++ [EFetch u]) u).
    destruct (fetch_failure w u (t ++ [EFetch u])) as [ e | ]; [ | contradiction ].
    rewrite Hm. apply starts_with_app.
Qed.

(** C2. For every URL and every outcome of the GET and of the parsing
    steps, [fetch_url] returns a string and does not raise: when the GET
    raises, the status is outside 2xx or a parsing step raises, the string
    is the fixed prefix followed by the text of the error and a closing
    parenthesis; otherwise it is the titled article.  Hence the fan-out of
    the handler always delivers its list of contexts, one per fetched link. *)
Theorem fetch_url_never_raises (w : World) (url : pystr) (urls : list pystr) (t : trace) :
  (exists s,
     fetch_url w url t = (Ok s, t ++ [EFetch url; EGet url])
     /\ match fetch_failure w url (t ++ [EFetch url]) with
        | Some e => s = FETCH_FAILED_PREFIX ++ exn_str e ++ lit ")"
        | None => starts_with (lit "# ") s = true
        end)
  /\ (exists ctxs,
        gather_contexts w urls t = (Ok ctxs, t ++ fetch_events (slice_to 3 urls))
        /\ List.length ctxs = List.length (slice_to 3 urls)).
Proof.
  split; [ apply fetch_url_outcome | apply gather_contexts_total ].
Qed.

(** C6. A query that is empty or made of whitespace only gets the fixed
    prompt-for-input body, which has no [meta] key, and the request does
    nothing else: no component is called and nothing is sent, the trace is
    left as it was. *)
Theorem empty_query_short_circuits (w : World) (cfg : Config)
    (fields : list (pystr * json)) (q : pystr) (t : trace) :
  lookup (lit "query") fields = Some (JStr q) ->
  forallb isspace q = true ->
  ask w cfg (JObj fields) t = (Ok PROMPT_FOR_INPUT, t)
  /\ field PROMPT_FOR_INPUT "ok" = Some (JBool true)
  /\ field PROMPT_FOR_INPUT "answer" = Some (JStr (lit "اكتب سؤالك…"))
  /\ field PROMPT_FOR_INPUT "meta" = None.
Proof.
  intros Hq Hsp. split.
  - apply ask_empty with (q := q).
    + apply lookup_dict_get, Hq.
    + apply strip_spaces, Hsp.
  - repeat split; vm_compute; reflexivity.
Qed.

Lemma empty_query_short_circuits_witness :
  ask offline some_key (request (lit "  " ++ [NL; TAB]) (Some (JStr (lit "code")))) []
  = (Ok PROMPT_FOR_INPUT, []).
Proof.
  apply (empty_query_short_circuits offline some_key
           [(lit "query", JStr (lit "  " ++ [NL; TAB])); (lit "mode", JStr (lit "code"))]
           (q := lit "  " ++ [NL; TAB]) []).
  - vm_compute. reflexivity.
  - vm_compute. reflexivity.
Defined.


(** C7. On a non-empty query the prompt handed to the completion client
    is the persona system message, then, exactly when contexts were
    fetched, one system message holding the instruction followed by the
    contexts joined with a blank line, then one user message. *)
Theorem prompt_shape (w : World) (cfg : Config)
    (fields : list (pystr * json)) (q : pystr) (t : trace) :
  lookup (lit "query") fields = Some (JStr q) ->
  strip q <> [] ->
  let query := strip q in
  let urls := URL_RE.findall query in
  let user := mkMessage User (user_content (mode_of fields) query) in
  exists ctxs r messages,
    gather_contexts w urls (t ++ [EFindall query])
    = (Ok ctxs, t ++ EFindall query :: fetch_events (slice_to 3 urls))
    /\ ask w cfg (JObj fields) t
       = (r, t ++ EFindall query :: fetch_events (slice_to 3 urls)
               ++ ECompletion messages
               :: post_events cfg (OPENAI_MODEL cfg) messages)
    /\ messages = build_messages ctxs (mode_of fields) query
    /\ messages = match ctxs with
                  | [] => [persona; user]
                  | _ :: _ => [persona; context_message ctxs; user]
                  end.
Proof.
  intros Hq Hs query urls user.
  destruct (ask_run w cfg fields t (lookup_dict_get _ _ (JStr []) Hq) Hs)
    as (ctxs & r & Hg & _ & Ha & _).
  exists ctxs, r, (build_messages ctxs (mode_of fields) query).
  repeat split; try assumption.
  unfold build_messages. destruct ctxs; reflexivity.
Qed.

Lemma prompt_shape_witness :
  exists r,
    ask not_found no_key (request (lit "read https://a.example/x please") None) []
    = (r, [ EFindall (lit "read https://a.example/x please");
            EFetch (lit "https://a.example/x"); EGet (lit "https://a.example/x");
            ECompletion
              [ persona;
                context_message [FETCH_FAILED_PREFIX ++ lit "Client error)"];
                mkMessage User (lit "read https://a.example/x please") ] ]).
Proof.
  destruct (prompt_shape not_found no_key
              [(lit "query", JStr (lit "read https://a.example/x please"))]
              (q := lit "read https://a.example/x please") [])
    as (ctxs & r & messages & Hg & Ha & _ & Hm).
  - vm_compute. reflexivity.
  - vm_compute. discriminate.
  - exists r. vm_compute in Hg. injection Hg as <-.
    subst messages. vm_compute in Ha. vm_compute. exact Ha.
Defined.

Lemma findall_nonempty_query (query : pystr) :
  URL_RE.findall query <> [] -> query <> [].
Proof. intros H E. subst query. apply H. reflexivity. Qed.

(** C9. When the query holds at least one link, the list of gathered
    contexts is not empty: it has one string per fetched link, whatever
    the fetches did, so the prompt always carries the context system
    message between the persona and the user message; this is so even
    when every fetch fails, and then every context is a placeholder that
    starts with the fixed prefix. *)
Theorem contexts_follow_links (w : World) (cfg : Config)
    (fields : list (pystr * json)) (q : pystr) (t : trace) :
  lookup (lit "query") fields = Some (JStr q) ->
  URL_RE.findall (strip q) <> [] ->
  let query := strip q in
  let urls := URL_RE.findall query in
  let user := mkMessage User (user_content (mode_of fields) query) in
  exists ctxs r,
    gather_contexts w urls (t ++ [EFindall query])
    = (Ok ctxs, t ++ EFindall query :: fetch_events (slice_to 3 urls))
    /\ ctxs <> []
    /\ List.length ctxs = Nat.min 3 (List.length urls)
    /\ ask w cfg (JObj fields) t
       = (r, t ++ EFindall query :: fetch_events (slice_to 3 urls)
               ++ ECompletion [persona; context_message ctxs; user]
               :: post_events cfg (OPENAI_MODEL cfg)
                    [persona; context_message ctxs; user])
    /\ ((forall h u, fetch_failure w u h <> None) ->
        Forall (fun c => starts_with FETCH_FAILED_PREFIX c = true) ctxs).
Proof.
  intros Hq Hu query urls user.
  pose proof (findall_nonempty_query Hu) as Hs.
  destruct (ask_run w cfg fields t (lookup_dict_get _ _ (JStr []) Hq) Hs)
    as (ctxs & r & Hg & Hl & Ha & _).
  fold query urls in Hg, Hl, Ha.
  assert (Hne : ctxs <> []).
  { intros E. subst ctxs. change (urls <> []) in Hu.
    destruct urls; [ apply Hu; reflexivity | discriminate Hl ]. }
  exists ctxs, r.
  split; [ exact Hg | split; [ exact Hne | split; [ | split ] ] ].
  - rewrite Hl. unfold slice_to. apply length_firstn.
  - rewrite Ha. unfold build_messages.
    destruct ctxs; [ contradiction | reflexivity ].
  - intros Hf. unfold gather_contexts in Hg.
    destruct (truthy urls).
    + exact (gather_all_failed w _ Hf _ Hg).
    + unfold ret in Hg. injection Hg as <- _. constructor.
Qed.

Lemma contexts_follow_links_witness :
  exists r,
    ask offline no_key (request (lit "http://down.example/a") None) []
    = (r, [ EFindall (lit "http://down.example/a");
            EFetch (lit "http://down.example/a"); EGet (lit "http://down.example/a");
            ECompletion
              [ persona;
                context_message
                  [FETCH_FAILED_PREFIX ++ lit "All connection attempts failed)"];
                mkMessage User (lit "http://down.example/a") ] ]).
Proof.
  destruct (contexts_follow_links offline no_key
              [(lit "query", JStr (lit "http://down.example/a"))]
              (q := lit "http://down.example/a") [])
    as (ctxs & r & Hg & _ & _ & Ha & Hall).
  - vm_compute. reflexivity.
  - vm_compute. discriminate.
  - assert (Hp : Forall (fun c => starts_with FETCH_FAILED_PREFIX c = true) ctxs)
      by (apply Hall; intros h u; discriminate).
    exists r. vm_compute in Hg. injection Hg as <-.
    vm_compute in Ha. vm_compute. exact Ha.
Defined.

Lemma ask_links (w : World) (cfg : Config) (fields : list (pystr * json))
    (q : pystr) (t : trace) :
  lookup (lit "query") fields = Some (JStr q) ->
  strip q <> [] ->
  let urls := URL_RE.findall (strip q) in
  exists r done,
    ask w cfg (JObj fields) t = (r, t ++ done)
    /\ fetched done = slice_to 3 urls
    /\ requested done = slice_to 3 urls
    /\ ((exists answer, r = JSONResponse (answer_body cfg urls (mode_of fields) answer))
        \/ (truthy (OPENAI_API_KEY cfg) = true /\ exists e, r = Raise e)).
Proof.
  intros Hq Hs urls.
  destruct (ask_run w cfg fields t (lookup_dict_get _ _ (JStr []) Hq) Hs)
    as (ctxs & r & _ & _ & Ha & Hr).
  fold urls in Ha, Hr.
  eexists r, _. split; [ exact Ha | ].
  split; [ | split ].
  - change (fetched (([EFindall (strip q)] ++ fetch_events (slice_to 3 urls))
                     ++ [ECompletion (build_messages ctxs (mode_of fields) (strip q))]
                     ++ post_events cfg (OPENAI_MODEL cfg)
                          (build_messages ctxs (mode_of fields) (strip q)))
            = slice_to 3 urls).
    rewrite !fetched_app, fetched_fetch_events, fetched_post_events.
    cbn. apply app_nil_r.
  - change (requested (([EFindall (strip q)] ++ fetch_events (slice_to 3 urls))
                     ++ [ECompletion (build_messages ctxs (mode_of fields) (strip q))]
                     ++ post_events cfg (OPENAI_MODEL cfg)
                          (build_messages ctxs (mode_of fields) (strip q)))
            = slice_to 3 urls).
    rewrite !requested_app, requested_fetch_events, requested_post_events.
    cbn. apply app_nil_r.
  - exact Hr.
Qed.

(** C4. With a credential configured, when the POST to the completions
    endpoint raises, or answers with a status outside 2xx, the handler
    does not return a body: the exception of the completion client is the
    outcome of the handler itself. *)
Theorem completion_errors_propagate (w : World) (cfg : Config)
    (fields : list (pystr * json)) (q : pystr) (t t1 : trace)
    (ctxs : list pystr) (e : exn) :
  truthy (OPENAI_API_KEY cfg) = true ->
  lookup (lit "query") fields = Some (JStr q) ->
  strip q <> [] ->
  let query := strip q in
  let messages := build_messages ctxs (mode_of fields) query in
  gather_contexts w (URL_RE.findall query) (t ++ [EFindall query]) = (Ok ctxs, t1) ->
  completion_failure w cfg (OPENAI_MODEL cfg) messages t1 = Some e ->
  ask w cfg (JObj fields) t
  = (Raise e,
     t1 ++ [ ECompletion messages;
             EPost (completions_url cfg) (completions_headers cfg)
               (completions_payload (OPENAI_MODEL cfg) messages) ]).
Proof.
  intros Hk Hq Hs query messages Hg Hf.
  destruct (ask_steps w cfg fields t (lookup_dict_get _ _ (JStr []) Hq) Hs)
    as (ctxs' & Hg' & _ & Ha).
  fold query in Hg', Ha. rewrite Hg in Hg'.
  assert (E1 : ctxs' = ctxs) by congruence.
  assert (E2 : t ++ EFindall query
                 :: fetch_events (slice_to 3 (URL_RE.findall query)) = t1)
    by congruence.
  subst ctxs'. rewrite E2 in Ha. fold messages in Ha.
  rewrite (call_openai_failure w cfg messages (OPENAI_MODEL cfg) t1 Hk Hf) in Ha.
  rewrite Ha. unfold post_events. rewrite Hk. reflexivity.
Qed.

Lemma completion_errors_propagate_witness :
  (exists t', ask (online 503) some_key (request (lit "hello") None) []
              = (Raise (mkExn "HTTPStatusError" (lit "Server error")), t'))
  /\ (exists t', ask offline some_key (request (lit "hello") None) []
                 = (Raise ConnectError, t')).
Proof.
  split; eexists.
  - apply (completion_errors_propagate (online 503) some_key
             [(lit "query", JStr (lit "hello"))] (q := lit "hello") [] (ctxs := [])
             (t1 := [EFindall (lit "hello")])).
    + vm_compute. reflexivity.
    + vm_compute. reflexivity.
    + vm_compute. discriminate.
    + vm_compute. reflexivity.
    + vm_compute. reflexivity.
  - apply (completion_errors_propagate offline some_key
             [(lit "query", JStr (lit "hello"))] (q := lit "hello") [] (ctxs := [])
             (t1 := [EFindall (lit "hello")])).
    + vm_compute. reflexivity.
    + vm_compute. reflexivity.
    + vm_compute. discriminate.
    + vm_compute. reflexivity.
    + vm_compute. reflexivity.
Defined.

(** ** Stripping *)

Lemma lstrip_head (s : pystr) : no_leading_space (lstrip s) = true.
Proof.
  induction s as [ | c s IH ]; [ reflexivity | ].
  cbn [lstrip]. destruct (isspace c) eqn:E; [ exact IH | ].
  cbn [no_leading_space]. rewrite E. reflexivity.
Qed.

Lemma lstrip_fix (s : pystr) : no_leading_space s = true -> lstrip s = s.
Proof.
  destruct s as [ | c s ]; [ reflexivity | ]. cbn [no_leading_space lstrip].
  destruct (isspace c); [ discriminate | reflexivity ].
Qed.

Lemma lstrip_keeps_end (a : pystr) (c : N) :
  isspace c = false -> exists y, lstrip (a ++ [c]) = y ++ [c].
Proof.
  intros Hc. induction a as [ | x a IH ]; cbn [app lstrip].
  - exists []. rewrite Hc. reflexivity.
  - destruct (isspace x); [ exact IH | exists (x :: a); reflexivity ].
Qed.

Lemma lstrip_app_spaces (ws s : pystr) :
  forallb isspace ws = true -> lstrip (ws ++ s) = lstrip s.
Proof.
  induction ws as [ | c ws IH ]; [ reflexivity | ].
  cbn [forallb app lstrip]. intros H. apply andb_true_iff in H as [Hc Hw].
  rewrite Hc. auto.
Qed.

Lemma rstrip_tail (s : pystr) : no_trailing_space (rstrip s) = true.
Proof.
  unfold no_trailing_space, rstrip. rewrite rev_involutive. apply lstrip_head.
Qed.

Lemma rstrip_fix (s : pystr) : no_trailing_space s = true -> rstrip s = s.
Proof.
  unfold no_trailing_space, rstrip. intros H.
  rewrite (lstrip_fix _ H). apply rev_involutive.
Qed.

Lemma rstrip_keeps_head (s : pystr) :
  no_leading_space s = true -> no_leading_space (rstrip s) = true.
Proof.
  destruct s as [ | c r ]; [ reflexivity | ]. cbn [no_leading_space]. intros H.
  unfold rstrip. cbn [rev].
  destruct (lstrip_keeps_end (rev r) c) as [y Hy].
  { destruct (isspace c); [ discriminate | reflexivity ]. }
  rewrite Hy, rev_app_distr. cbn. exact H.
Qed.

Lemma forallb_reversed (f : N -> bool) (l : pystr) :
  forallb f (rev l) = forallb f l.
Proof.
  induction l as [ | c l IH ]; [ reflexivity | ].
  cbn [rev forallb]. rewrite forallb_app, IH. cbn. rewrite andb_true_r.
  apply andb_comm.
Qed.

Lemma rstrip_app_spaces (x ws : pystr) (d : N) :
  isspace d = false -> forallb isspace ws = true ->
  rstrip (x ++ d :: ws) = x ++ [d].
Proof.
  intros Hd Hw. unfold rstrip.
  rewrite rev_app_distr. cbn [rev]. rewrite <- app_assoc.
  rewrite lstrip_app_spaces by (rewrite forallb_reversed; exact Hw).
  cbn [app lstrip]. rewrite Hd.
  change (d :: rev x) with ([d] ++ rev x).
  rewrite rev_app_distr, rev_involutive. reflexivity.
Qed.

Lemma strip_no_leading (s : pystr) : no_leading_space (strip s) = true.
Proof. apply rstrip_keeps_head, lstrip_head. Qed.

Lemma strip_no_trailing (s : pystr) : no_trailing_space (strip s) = true.
Proof. apply rstrip_tail. Qed.

Lemma strip_idempotent (s : pystr) : strip (strip s) = strip s.
Proof.
  unfold strip at 1.
  rewrite (lstrip_fix _ (strip_no_leading s)).
  apply rstrip_fix, strip_no_trailing.
Qed.

Lemma no_leading_space_app (a b : pystr) :
  a <> [] -> no_leading_space (a ++ b) = no_leading_space a.
Proof. destruct a; [ contradiction | reflexivity ]. Qed.

Lemma no_trailing_space_app (a b : pystr) :
  b <> [] -> no_trailing_space (a ++ b) = no_trailing_space b.
Proof.
  intros Hb. unfold no_trailing_space. rewrite rev_app_distr.
  apply no_leading_space_app. intros E. apply Hb.
  rewrite <- (rev_involutive b), E. reflexivity.
Qed.

(** ** Links hold no whitespace *)

Lemma no_space_app (a b : pystr) : no_space (a ++ b) = no_space a && no_space b.
Proof. apply forallb_app. Qed.

Lemma nonspace_run_no_space (s : pystr) : no_space (URL_RE.nonspace_run s) = true.
Proof.
  induction s as [ | c s IH ]; [ reflexivity | ].
  cbn [URL_RE.nonspace_run]. destruct (isspace c) eqn:E; [ reflexivity | ].
  cbn. rewrite E. exact IH.
Qed.

Lemma tail_match_no_space (s m : pystr) :
  URL_RE.tail_match s = Some m -> no_space m = true.
Proof.
  unfold URL_RE.tail_match.
  destruct (URL_RE.after (lit "://") s) as [ b | ]; [ | discriminate ].
  pose proof (nonspace_run_no_space b) as Hb.
  destruct (URL_RE.nonspace_run b) as [ | c run ]; [ discriminate | ].
  intros H. assert (E : m = lit "://" ++ c :: run) by congruence.
  rewrite E, no_space_app, Hb. reflexivity.
Qed.

Lemma match_here_no_space (s m : pystr) :
  URL_RE.match_here s = Some m -> no_space m = true.
Proof.
  unfold URL_RE.match_here.
  destruct (URL_RE.after (lit "http") s) as [ r | ]; [ | discriminate ].
  assert (Hw : forall x,
             match URL_RE.tail_match r with
             | Some t => Some (lit "http" ++ t)
             | None => None
             end = Some x -> no_space x = true).
  { intros x. destruct (URL_RE.tail_match r) as [ t0 | ] eqn:E; [ | discriminate ].
    intros H. assert (E' : x = lit "http" ++ t0) by congruence.
    rewrite E', no_space_app, (tail_match_no_space _ E). reflexivity. }
  destruct (URL_RE.after (lit "s") r) as [ r' | ]; [ | apply Hw ].
  destruct (URL_RE.tail_match r') as [ t0 | ] eqn:E; [ | apply Hw ].
  intros H. assert (E' : m = lit "https" ++ t0) by congruence.
  rewrite E', no_space_app, (tail_match_no_space _ E). reflexivity.
Qed.

Lemma findall_no_space (text : pystr) :
  Forall (fun u => no_space u = true) (URL_RE.findall text).
Proof.
  unfold URL_RE.findall. generalize 0%nat.
  induction text as [ | c text IH ]; intros k; cbn [URL_RE.scan];
    [ constructor | ].
  destruct k as [ | k ]; [ | apply IH ].
  destruct (URL_RE.match_here (c :: text)) as [ m | ] eqn:E; [ | apply IH ].
  constructor; [ exact (match_here_no_space _ E) | apply IH ].
Qed.

(** ** The handler reads the query through [strip] only *)

Lemma dict_get_mode (fields : list (pystr * json)) :
  dict_get (JObj fields) "mode" (JStr (lit "auto")) = Ok (mode_of fields).
Proof.
  unfold mode_of, dict_get. destruct (lookup (lit "mode") fields); reflexivity.
Qed.

Lemma ask_same_query (w : World) (cfg : Config)
    (f1 f2 : list (pystr * json)) (q1 q2 : pystr) (t : trace) :
  dict_get (JObj f1) "query" (JStr []) = Ok (JStr q1) ->
  dict_get (JObj f2) "query" (JStr []) = Ok (JStr q2) ->
  strip q1 = strip q2 ->
  mode_of f1 = mode_of f2 ->
  ask w cfg (JObj f1) t = ask w cfg (JObj f2) t.
Proof.
  intros H1 H2 Hs Hm. unfold ask, bind, lift.
  rewrite H1, H2. cbn [py_strip]. rewrite !dict_get_mode, Hs, Hm. reflexivity.
Qed.

Lemma mode_of_with_query (q : pystr) (fields : list (pystr * json)) :
  mode_of (with_query q fields) = mode_of fields.
Proof.
  unfold mode_of, with_query. cbn [lookup].
  replace (pystr_eqb (lit "mode") (lit "query")) with false
    by (vm_compute; reflexivity).
  reflexivity.
Qed.

Lemma dict_get_with_query (q : pystr) (fields : list (pystr * json)) (d : json) :
  dict_get (JObj (with_query q fields)) "query" d = Ok (JStr q).
Proof.
  unfold dict_get, with_query. cbn [lookup].
  replace (pystr_eqb (lit "query") (lit "query")) with true
    by (vm_compute; reflexivity).
  reflexivity.
Qed.

Lemma user_content_edges (mode : json) (query : pystr) :
  query <> [] ->
  no_leading_space query = true -> no_trailing_space query = true ->
  no_leading_space (user_content mode query) = true
  /\ no_trailing_space (user_content mode query) = true.
Proof.
  intros Hne Hl Ht. unfold user_content.
  destruct (eq_str mode "summarize"); [ | destruct (eq_str mode "code") ].
  - rewrite no_leading_space_app by (vm_compute; discriminate).
    rewrite no_trailing_space_app by exact Hne. split; [ vm_compute; reflexivity | exact Ht ].
  - rewrite no_leading_space_app by (vm_compute; discriminate).
    rewrite no_trailing_space_app by exact Hne. split; [ vm_compute; reflexivity | exact Ht ].
  - split; assumption.
Qed.

(** ** Lines *)

Lemma lines_nonempty (s : pystr) : lines s <> [].
Proof.
  destruct s as [ | c s ]; cbn [lines]; [ discriminate | ].
  destruct (c =? NL); [ discriminate | ]. destruct (lines s); discriminate.
Qed.

Lemma lines_cons_other (c : N) (s : pystr) :
  (c =? NL) = false -> lines (c :: s) = (c :: hd [] (lines s)) :: tl (lines s).
Proof.
  intros H. cbn [lines]. rewrite H. pose proof (lines_nonempty s) as Hn.
  destruct (lines s); [ contradiction | reflexivity ].
Qed.

Lemma lines_app (a b : pystr) :
  lines (a ++ b)
  = removelast (lines a) ++ (last (lines a) [] ++ hd [] (lines b)) :: tl (lines b).
Proof.
  induction a as [ | c a IH ].
  - cbn. pose proof (lines_nonempty b) as Hn.
    destruct (lines b); [ contradiction | reflexivity ].
  - cbn [app]. pose proof (lines_nonempty a) as Hn.
    destruct (c =? NL) eqn:E.
    + cbn [lines]. rewrite E, IH.
      destruct (lines a) as [ | x xs ]; [ contradiction | reflexivity ].
    + rewrite !lines_cons_other by exact E. rewrite IH.
      destruct (lines a) as [ | x [ | y ys ] ]; [ contradiction | | ]; reflexivity.
Qed.

Lemma lines_app_nl (a b : pystr) : lines (a ++ NL :: b) = lines a ++ lines b.
Proof.
  rewrite lines_app. change (lines (NL :: b)) with ([] :: lines b).
  cbn [hd tl]. rewrite app_nil_r.
  rewrite (app_removelast_last [] (lines_nonempty a)) at 3.
  rewrite <- app_assoc. reflexivity.
Qed.

Lemma lines_single (s : pystr) :
  forallb (fun c => negb (c =? NL)) s = true -> lines s = [s].
Proof.
  induction s as [ | c s IH ]; [ reflexivity | ].
  cbn [forallb]. intros H. apply andb_true_iff in H as [Hc Hs].
  apply negb_true_iff in Hc. rewrite (@lines_cons_other c s Hc), (IH Hs). reflexivity.
Qed.

Lemma join_lines (s : pystr) : join [NL] (lines s) = s.
Proof.
  induction s as [ | c s IH ]; [ reflexivity | ].
  pose proof (lines_nonempty s) as Hn.
  destruct (c =? NL) eqn:E.
  - cbn [lines]. rewrite E. apply N.eqb_eq in E. subst c.
    destruct (lines s) as [ | x xs ]; [ contradiction | ].
    cbn [join app] in *. rewrite IH. reflexivity.
  - rewrite (@lines_cons_other c s E).
    destruct (lines s) as [ | x [ | y ys ] ]; [ contradiction | | ];
      cbn [hd tl join app] in *; rewrite <- IH; reflexivity.
Qed.

Lemma join_app (sep : pystr) (l1 l2 : list pystr) :
  l1 <> [] -> l2 <> [] ->
  join sep (l1 ++ l2) = join sep l1 ++ sep ++ join sep l2.
Proof.
  intros H1 H2. induction l1 as [ | x l1 IH ]; [ contradiction | ].
  destruct l1 as [ | y l1 ].
  - destruct l2; [ contradiction | reflexivity ].
  - change (join sep ((x :: y :: l1) ++ l2))
      with (x ++ sep ++ join sep ((y :: l1) ++ l2)).
    rewrite IH by discriminate.
    change (join sep (x :: y :: l1)) with (x ++ sep ++ join sep (y :: l1)).
    rewrite <- !app_assoc. reflexivity.
Qed.

(** ** [dedent] on a text with a flush-left line *)

Lemma sub_ws_only_app_nl (a b : pystr) :
  Textwrap.sub_ws_only (a ++ NL :: b)
  = Textwrap.sub_ws_only a ++ NL :: Textwrap.sub_ws_only b.
Proof.
  unfold Textwrap.sub_ws_only. rewrite lines_app_nl, map_app.
  rewrite join_app; [ reflexivity | | ];
    intros E; apply map_eq_nil in E; exact (lines_nonempty _ E).
Qed.


Lemma narrow_empty (m : option pystr) : Textwrap.narrow m [] = Some [].
Proof. destruct m as [ [ | c m ] | ]; reflexivity. Qed.

Lemma fold_narrow_empty (l : list pystr) :
  fold_left Textwrap.narrow l (Some []) = Some [].
Proof. induction l as [ | x l IH ]; [ reflexivity | exact IH ]. Qed.

Lemma fold_narrow_in (l : list pystr) :
  forall m, In [] l -> fold_left Textwrap.narrow l m = Some [].
Proof.
  induction l as [ | x l IH ]; intros m H; [ contradiction | ].
  destruct H as [ -> | H ]; cbn [fold_left].
  - rewrite narrow_empty. apply fold_narrow_empty.
  - apply IH, H.
Qed.

Lemma indents_flush (text : pystr) :
  existsb flush_left (lines text) = true -> In [] (Textwrap.indents_of text).
Proof.
  intros H. apply existsb_exists in H as (l & Hl & Hf).
  unfold flush_left in Hf. apply andb_true_iff in Hf as [Ht Hw].
  unfold Textwrap.indents_of. apply in_map_iff. exists l. split.
  - destruct (Textwrap.leading_ws l); [ reflexivity | discriminate ].
  - apply filter_In. split; assumption.
Qed.

Lemma dedent_flush (text : pystr) :
  existsb flush_left (lines (Textwrap.sub_ws_only text)) = true ->
  Textwrap.dedent text = Textwrap.sub_ws_only text.
Proof.
  intros H. unfold Textwrap.dedent.
  rewrite (fold_narrow_in _ None (indents_flush _ H)). reflexivity.
Qed.

(** ** The two echoes *)








Section Template.

Variables WS A B T S8 : pystr.
Hypothesis HWS : forallb isspace WS = true.
Hypothesis HS8 : Textwrap.sub_ws_only S8 = [].
Hypothesis HA : Textwrap.sub_ws_only (WS ++ A) = WS ++ A.
Hypothesis HAl : no_leading_space A = true.
Hypothesis HAn : A <> [].
Hypothesis HB : Textwrap.sub_ws_only B = B.
Hypothesis HBf : existsb flush_left (lines B) = true.
Hypothesis HT : lines T = [T].
Hypothesis HTt : Textwrap.has_text T = true.
Hypothesis HTs : no_trailing_space T = true.


End Template.



Lemma answer_body_provider cfg urls mode answer :
  meta_field (answer_body cfg urls mode answer) "provider" = Some (JStr (provider cfg)).
Proof. vm_compute. reflexivity. Qed.

Lemma answer_body_answer cfg urls mode answer :
  field (answer_body cfg urls mode answer) "answer" = Some (JStr answer).
Proof. vm_compute. reflexivity. Qed.

Example answer_head_text :
  ANSWER_HEAD
  = lit "(تشغيل مبسط بدون API)" ++ [NL; NL] ++ lit "        فهمي للسؤال:" ++ [NL] ++ lit "- ".
Proof. vm_compute. reflexivity. Qed.

Example answer_tail_text : ANSWER_TAIL = lit " — يتطلب تفصيلاً حسب السياق.".
Proof. vm_compute. reflexivity. Qed.

(* ================================================================== *)
(** * Further properties of the code *)

(** ** The link extractor *)

Lemma after_split (p s r : pystr) : URL_RE.after p s = Some r -> s = p ++ r.
Proof.
  revert s. induction p as [ | a p IH ]; intros s H.
  - cbn in H. injection H as ->. reflexivity.
  - destruct s as [ | b s ]; [ discriminate | ]. cbn [URL_RE.after] in H.
    destruct (a =? b) eqn:E; [ | discriminate ].
    apply N.eqb_eq in E. subst b. cbn [app]. f_equal. apply IH, H.
Qed.







Lemma match_here_needs_http (s m : pystr) :
  URL_RE.match_here s = Some m -> starts_with (lit "http") s = true.
Proof.
  unfold URL_RE.match_here.
  destruct (URL_RE.after (lit "http") s) as [ r | ] eqn:Ea; [ | discriminate ].
  intros _. rewrite (after_split _ _ Ea). apply starts_with_app.
Qed.

(** X2. A text in which the four letters "http" do not occur has no
    links. *)
Theorem no_http_no_links (text : pystr) :
  contains text (lit "http") = false -> URL_RE.findall text = [].
Proof.
  unfold URL_RE.findall. generalize 0%nat.
  induction text as [ | c text IH ]; intros k H; [ reflexivity | ].
  cbn [contains] in H. apply orb_false_iff in H as [Hs Hc].
  cbn [URL_RE.scan]. destruct k as [ | k ]; [ | apply IH, Hc ].
  destruct (URL_RE.match_here (c :: text)) as [ m | ] eqn:E; [ | apply IH, Hc ].
  rewrite (match_here_needs_http _ E) in Hs. discriminate.
Qed.

Lemma no_http_no_links_witness :
  URL_RE.findall (lit "ftp://a.b www.c.d htt p://e") = [].
Proof. apply no_http_no_links. vm_compute. reflexivity. Defined.

Lemma space_differs (a c : N) : isspace a = false -> isspace c = true -> (a =? c) = false.
Proof.
  intros Ha Hc. destruct (a =? c) eqn:E; [ | reflexivity ].
  apply N.eqb_eq in E. subst c. congruence.
Qed.

Lemma after_app_spaces (p ws : pystr) :
  no_space p = true -> forallb isspace ws = true ->
  forall x, URL_RE.after p (x ++ ws)
            = option_map (fun r => r ++ ws) (URL_RE.after p x).
Proof.
  intros Hp Hw. induction p as [ | a p IH ]; intros x; [ reflexivity | ].
  cbn [no_space forallb] in Hp. apply andb_true_iff in Hp as [Ha Hp].
  apply negb_true_iff in Ha.
  destruct x as [ | b x ].
  - cbn [app URL_RE.after option_map]. destruct ws as [ | c ws ]; [ reflexivity | ].
    cbn [forallb] in Hw. apply andb_true_iff in Hw as [Hc _].
    rewrite (@space_differs a c Ha Hc). reflexivity.
  - cbn [app URL_RE.after]. destruct (a =? b); [ apply IH, Hp | reflexivity ].
Qed.

Lemma nonspace_run_app_spaces (ws : pystr) :
  forallb isspace ws = true ->
  forall b, URL_RE.nonspace_run (b ++ ws) = URL_RE.nonspace_run b.
Proof.
  intros Hw. induction b as [ | c b IH ].
  - destruct ws as [ | c ws ]; [ reflexivity | ].
    cbn [forallb] in Hw. apply andb_true_iff in Hw as [Hc _].
    cbn [app URL_RE.nonspace_run]. rewrite Hc. reflexivity.
  - cbn [app URL_RE.nonspace_run]. destruct (isspace c); [ reflexivity | ].
    f_equal. exact IH.
Qed.

Lemma tail_match_app_spaces (ws : pystr) :
  forallb isspace ws = true ->
  forall x, URL_RE.tail_match (x ++ ws) = URL_RE.tail_match x.
Proof.
  intros Hw x. unfold URL_RE.tail_match.
  rewrite after_app_spaces by (reflexivity || exact Hw).
  destruct (URL_RE.after (lit "://") x) as [ b | ]; [ | reflexivity ].
  cbn [option_map]. rewrite nonspace_run_app_spaces by exact Hw. reflexivity.
Qed.

Lemma match_here_app_spaces (ws : pystr) :
  forallb isspace ws = true ->
  forall x, URL_RE.match_here (x ++ ws) = URL_RE.match_here x.
Proof.
  intros Hw x. unfold URL_RE.match_here.
  rewrite after_app_spaces by (reflexivity || exact Hw).
  destruct (URL_RE.after (lit "http") x) as [ r | ]; [ | reflexivity ].
  cbn [option_map]. rewrite tail_match_app_spaces by exact Hw.
  rewrite after_app_spaces by (reflexivity || exact Hw).
  destruct (URL_RE.after (lit "s") r) as [ r' | ]; [ | reflexivity ].
  cbn [option_map]. rewrite tail_match_app_spaces by exact Hw. reflexivity.
Qed.

Lemma match_here_space_head (c : N) (s : pystr) :
  isspace c = true -> URL_RE.match_here (c :: s) = None.
Proof.
  intros Hc. unfold URL_RE.match_here.
  change (lit "http") with [104; 116; 116; 112]. cbn [URL_RE.after].
  rewrite (@space_differs 104 c) by (reflexivity || exact Hc). reflexivity.
Qed.

Lemma scan_spaces (ws : pystr) :
  forallb isspace ws = true -> forall k, URL_RE.scan ws k = [].
Proof.
  induction ws as [ | c ws IH ]; intros Hw k; [ reflexivity | ].
  cbn [forallb] in Hw. apply andb_true_iff in Hw as [Hc Hw].
  cbn [URL_RE.scan]. destruct k; [ | apply IH, Hw ].
  rewrite (@match_here_space_head c ws Hc). apply IH, Hw.
Qed.

Lemma scan_app_spaces (ws : pystr) :
  forallb isspace ws = true ->
  forall x k, URL_RE.scan (x ++ ws) k = URL_RE.scan x k.
Proof.
  intros Hw. induction x as [ | c x IH ]; intros k.
  - cbn [app]. rewrite scan_spaces by exact Hw. destruct k; reflexivity.
  - change ((c :: x) ++ ws) with (c :: (x ++ ws)). cbn [URL_RE.scan].
    destruct k; [ | apply IH ].
    change (c :: x ++ ws) with ((c :: x) ++ ws).
    rewrite match_here_app_spaces by exact Hw.
    destruct (URL_RE.match_here (c :: x)); [ f_equal | ]; apply IH.
Qed.

Lemma scan_spaces_app (ws x : pystr) :
  forallb isspace ws = true -> URL_RE.scan (ws ++ x) 0 = URL_RE.scan x 0.
Proof.
  induction ws as [ | c ws IH ]; intros Hw; [ reflexivity | ].
  cbn [forallb] in Hw. apply andb_true_iff in Hw as [Hc Hw].
  cbn [app URL_RE.scan]. rewrite (@match_here_space_head c (ws ++ x) Hc). apply IH, Hw.
Qed.

Lemma lstrip_split (s : pystr) :
  exists ws, s = ws ++ lstrip s /\ forallb isspace ws = true.
Proof.
  induction s as [ | c s (ws & E & Hw) ]; [ exists []; split; reflexivity | ].
  cbn [lstrip]. destruct (isspace c) eqn:Hc.
  - exists (c :: ws). split; [ cbn [app]; f_equal; exact E | ].
    cbn [forallb]. rewrite Hc. exact Hw.
  - exists []. split; reflexivity.
Qed.

Lemma rstrip_split (s : pystr) :
  exists ws, s = rstrip s ++ ws /\ forallb isspace ws = true.
Proof.
  destruct (lstrip_split (rev s)) as (ws & E & Hw).
  exists (rev ws). split; [ | rewrite forallb_reversed; exact Hw ].
  unfold rstrip. rewrite <- rev_app_distr, <- E. symmetry. apply rev_involutive.
Qed.

Lemma findall_strip (s : pystr) : URL_RE.findall (strip s) = URL_RE.findall s.
Proof.
  unfold URL_RE.findall, strip.
  destruct (lstrip_split s) as (ws1 & E1 & H1).
  destruct (rstrip_split (lstrip s)) as (ws2 & E2 & H2).
  rewrite E1 at 2. rewrite scan_spaces_app by exact H1.
  rewrite E2 at 2. rewrite scan_app_spaces by exact H2. reflexivity.
Qed.

(** X3. Whitespace around a text does not change the links found in it:
    the links of the stripped query, which the handler reports in
    [meta.urls], are the links of the query as it was sent. *)
Theorem findall_ignores_surrounding_space (s : pystr) :
  URL_RE.findall (strip s) = URL_RE.findall s.
Proof. apply findall_strip. Qed.

(** ** The handler on any body *)

Lemma strip_empty_spaces (s : pystr) : strip s = [] -> forallb isspace s = true.
Proof.
  intros H. destruct (lstrip_split s) as (ws1 & E1 & H1).
  destruct (rstrip_split (lstrip s)) as (ws2 & E2 & H2).
  fold (strip s) in E2. rewrite H in E2. cbn [app] in E2.
  rewrite E1, E2, forallb_app, H1, H2. reflexivity.
Qed.

(** X4. The handler gives the prompt-for-input body and does nothing else
    exactly when the query is empty or made of whitespace only: a query
    with one other character always reaches the completion client. *)
Theorem short_circuit_exactly_on_blank (w : World) (cfg : Config)
    (fields : list (pystr * json)) (q : pystr) (t : trace) :
  lookup (lit "query") fields = Some (JStr q) ->
  (ask w cfg (JObj fields) t = (Ok PROMPT_FOR_INPUT, t) <-> forallb isspace q = true).
Proof.
  intros Hq. pose proof (lookup_dict_get fields "query" (JStr []) Hq) as Hd. split.
  - intros Ha. destruct (strip q) as [ | c s ] eqn:Es.
    + apply strip_empty_spaces, Es.
    + assert (Hs : strip q <> []) by (rewrite Es; discriminate).
      destruct (ask_run w cfg fields t Hd Hs) as (ctxs & r & _ & _ & Hr & _).
      rewrite Ha in Hr. injection Hr as _ Ht.
      apply (f_equal (@List.length event)) in Ht.
      rewrite length_app in Ht. cbn [List.length] in Ht. lia.
  - intros Hsp. apply ask_empty with (q := q); [ exact Hd | apply strip_spaces, Hsp ].
Qed.

(** X5. A query that is present but is not a string makes the handler
    raise [AttributeError] on [strip], before any component is called. *)
Theorem non_string_query_raises (w : World) (cfg : Config)
    (fields : list (pystr * json)) (v : json) (t : trace) :
  lookup (lit "query") fields = Some v ->
  (forall s, v <> JStr s) ->
  ask w cfg (JObj fields) t = (Raise (AttributeError v "strip"), t).
Proof.
  intros Hq Hv. unfold ask, bind, lift.
  rewrite (lookup_dict_get fields "query" (JStr []) Hq).
  destruct v; try reflexivity. exfalso. exact (Hv _ eq_refl).
Qed.

Lemma non_string_query_raises_witness :
  ask offline no_key (JObj [(lit "query", JNull); (lit "mode", JStr (lit "code"))]) []
  = (Raise (mkExn "AttributeError" (lit "'NoneType' object has no attribute 'strip'")), []).
Proof.
  apply (non_string_query_raises offline no_key
           [(lit "query", JNull); (lit "mode", JStr (lit "code"))] (v := JNull) []).
  - vm_compute. reflexivity.
  - intros s. discriminate.
Defined.

(** X6. A body that is not a JSON object makes the handler raise
    [AttributeError] on [get], before any component is called. *)
Theorem non_object_body_raises (w : World) (cfg : Config) (body : json) (t : trace) :
  (forall fields, body <> JObj fields) ->
  ask w cfg body t = (Raise (AttributeError body "get"), t).
Proof.
  intros Hb. unfold ask, bind, lift.
  destruct body; try reflexivity. exfalso. exact (Hb _ eq_refl).
Qed.

Lemma non_object_body_raises_witness :
  ask offline no_key (JArr [JStr (lit "hello")]) []
  = (Raise (mkExn "AttributeError" (lit "'list' object has no attribute 'get'")), []).
Proof.
  apply (non_object_body_raises offline no_key (body := JArr [JStr (lit "hello")]) []).
  intros fields. discriminate.
Defined.

(** X7. The handler reads nothing of the body but [query] and [mode]: two
    bodies that agree on these two fields are handled alike. *)
Theorem only_query_and_mode_read (w : World) (cfg : Config)
    (f1 f2 : list (pystr * json)) (t : trace) :
  lookup (lit "query") f1 = lookup (lit "query") f2 ->
  lookup (lit "mode") f1 = lookup (lit "mode") f2 ->
  ask w cfg (JObj f1) t = ask w cfg (JObj f2) t.
Proof.
  intros Hq Hm. unfold ask, dict_get. rewrite Hq, Hm. reflexivity.
Qed.

Lemma only_query_and_mode_read_witness :
  ask (online 200) some_key
    (JObj [(lit "user", JStr (lit "bob")); (lit "query", JStr (lit "hi"));
           (lit "temperature", JInt 2)]) []
  = ask (online 200) some_key (JObj [(lit "query", JStr (lit "hi"))]) [].
Proof.
  apply only_query_and_mode_read; vm_compute; reflexivity.
Defined.

Lemma short_circuit_exactly_on_blank_witness :
  ask offline no_key (request (lit " x ") None) [] <> (Ok PROMPT_FOR_INPUT, []).
Proof.
  intros H.
  apply (short_circuit_exactly_on_blank offline no_key
           [(lit "query", JStr (lit " x "))] (q := lit " x ") []) in H.
  - vm_compute in H. discriminate H.
  - vm_compute. reflexivity.
Defined.

(** ** The completion client with a credential *)

Lemma call_openai_reply (w : World) (cfg : Config) (msgs : list Message)
    (t : trace) (r : Response) :
  truthy (OPENAI_API_KEY cfg) = true ->
  net_post w (t ++ [ECompletion msgs]) (completions_url cfg)
    (completions_headers cfg) (completions_payload (OPENAI_MODEL cfg) msgs) = Ok r ->
  is_success r = true ->
  call_openai w cfg msgs (OPENAI_MODEL cfg) t
  = (reply_text r, t ++ [ECompletion msgs; completion_post cfg msgs]).
Proof.
  intros Hk Hp Hs. unfold call_openai, bind at 1, emit.
  rewrite Hk. cbn [negb]. unfold bind at 1, client_post.
  rewrite Hp. rewrite <- app_assoc. cbn [app].
  unfold bind at 1, raise_for_status. rewrite Hs. unfold ret at 1.
  unfold reply_text, bind, lift, completion_post.
  destruct (json_body r) as [ d | ]; [ | reflexivity ].
  destruct (getitem d "choices") as [ c | ]; [ | reflexivity ].
  destruct (getitem0 c) as [ c0 | ]; [ | reflexivity ].
  destruct (getitem c0 "message") as [ m | ]; [ | reflexivity ].
  destruct (getitem m "content") as [ x | ]; reflexivity.
Qed.

Lemma ask_with_reply (w : World) (cfg : Config) (fields : list (pystr * json))
    (q : pystr) (t t1 : trace) (ctxs : list pystr) (r : Response) :
  truthy (OPENAI_API_KEY cfg) = true ->
  lookup (lit "query") fields = Some (JStr q) ->
  strip q <> [] ->
  let query := strip q in
  let messages := build_messages ctxs (mode_of fields) query in
  gather_contexts w (URL_RE.findall query) (t ++ [EFindall query]) = (Ok ctxs, t1) ->
  net_post w (t1 ++ [ECompletion messages]) (completions_url cfg)
    (completions_headers cfg) (completions_payload (OPENAI_MODEL cfg) messages) = Ok r ->
  is_success r = true ->
  ask w cfg (JObj fields) t
  = (match reply_text r with
     | Ok answer =>
         JSONResponse (answer_body cfg (URL_RE.findall query) (mode_of fields) answer)
     | Raise e => Raise e
     end,
     t1 ++ [ECompletion messages; completion_post cfg messages]).
Proof.
  intros Hk Hq Hs query messages Hg Hp Hok.
  destruct (ask_steps w cfg fields t (lookup_dict_get _ _ (JStr []) Hq) Hs)
    as (ctxs' & Hg' & _ & Ha).
  fold query in Hg', Ha. rewrite Hg in Hg'.
  assert (E1 : ctxs' = ctxs) by congruence.
  assert (E2 : t ++ EFindall query
                 :: fetch_events (slice_to 3 (URL_RE.findall query)) = t1)
    by congruence.
  subst ctxs'. rewrite E2 in Ha. fold messages in Ha.
  rewrite (call_openai_reply w cfg messages t1 Hk Hp Hok) in Ha.
  rewrite Ha. destruct (reply_text r); reflexivity.
Qed.

(** X10. With a credential, a 2xx reply that cannot be read is not caught
    either: the handler raises [KeyError] when the JSON object has no
    [choices], [IndexError] when [choices] is an empty list, and
    [AttributeError] when the content of the first message is not a
    string. *)
Theorem unreadable_reply_raises (w : World) (cfg : Config)
    (fields : list (pystr * json)) (q : pystr) (t t1 : trace)
    (ctxs : list pystr) (r : Response) (top : list (pystr * json)) :
  truthy (OPENAI_API_KEY cfg) = true ->
  lookup (lit "query") fields = Some (JStr q) ->
  strip q <> [] ->
  let query := strip q in
  let messages := build_messages ctxs (mode_of fields) query in
  let t2 := t1 ++ [ECompletion messages; completion_post cfg messages] in
  gather_contexts w (URL_RE.findall query) (t ++ [EFindall query]) = (Ok ctxs, t1) ->
  net_post w (t1 ++ [ECompletion messages]) (completions_url cfg)
    (completions_headers cfg) (completions_payload (OPENAI_MODEL cfg) messages) = Ok r ->
  is_success r = true ->
  json_body r = Ok (JObj top) ->
  (lookup (lit "choices") top = None ->
   ask w cfg (JObj fields) t = (Raise (KeyError "'choices'"), t2))
  /\ (lookup (lit "choices") top = Some (JArr []) ->
      ask w cfg (JObj fields) t = (Raise (IndexError "list"), t2))
  /\ (forall choice others message v,
        lookup (lit "choices") top = Some (JArr (JObj choice :: others)) ->
        lookup (lit "message") choice = Some (JObj message) ->
        lookup (lit "content") message = Some v ->
        (forall s, v <> JStr s) ->
        ask w cfg (JObj fields) t = (Raise (AttributeError v "strip"), t2)).
Proof.
  intros Hk Hq Hs query messages t2 Hg Hp Hok Hj.
  pose proof (ask_with_reply w cfg fields t Hk Hq Hs Hg Hp Hok) as Ha.
  fold query messages t2 in Ha.
  split; [ | split ].
  - intros Hc. rewrite Ha. unfold reply_text, getitem. rewrite Hj, Hc. reflexivity.
  - intros Hc. rewrite Ha. unfold reply_text, getitem. rewrite Hj, Hc. reflexivity.
  - intros choice others message v Hc Hm Hx Hv. rewrite Ha.
    unfold reply_text, getitem. rewrite Hj, Hc. cbn [getitem0]. rewrite Hm, Hx.
    destruct v; try reflexivity. exfalso. exact (Hv _ eq_refl).
Qed.

Lemma unreadable_reply_raises_witness :
  (exists t', ask (replying (JObj [(lit "error", JStr (lit "quota"))])) some_key
                (request (lit "hello") None) []
              = (Raise (mkExn "KeyError" (lit "'choices'")), t'))
  /\ (exists t', ask (replying (JObj [(lit "choices", JArr [])])) some_key
                   (request (lit "hello") None) []
                 = (Raise (mkExn "IndexError" (lit "list index out of range")), t'))
  /\ (exists t', ask (replying
                        (JObj [(lit "choices",
                                JArr [JObj [(lit "message",
                                             JObj [(lit "content", JNull)])]])]))
                   some_key (request (lit "hello") None) []
                 = (Raise (mkExn "AttributeError"
                             (lit "'NoneType' object has no attribute 'strip'")), t')).
Proof.
  split; [ | split ]; eexists.
  - apply (unreadable_reply_raises (replying (JObj [(lit "error", JStr (lit "quota"))]))
             some_key [(lit "query", JStr (lit "hello"))] (q := lit "hello") []
             (t1 := [EFindall (lit "hello")]) (ctxs := [])
             (r := mkResponse 200 [] (Ok (JObj [(lit "error", JStr (lit "quota"))])))
             (top := [(lit "error", JStr (lit "quota"))]));
      try (vm_compute; reflexivity). vm_compute. discriminate.
  - apply (unreadable_reply_raises (replying (JObj [(lit "choices", JArr [])]))
             some_key [(lit "query", JStr (lit "hello"))] (q := lit "hello") []
             (t1 := [EFindall (lit "hello")]) (ctxs := [])
             (r := mkResponse 200 [] (Ok (JObj [(lit "choices", JArr [])])))
             (top := [(lit "choices", JArr [])]));
      try (vm_compute; reflexivity). vm_compute. discriminate.
  - apply (proj2 (proj2
             (unreadable_reply_raises
                (replying (JObj [(lit "choices",
                                  JArr [JObj [(lit "message",
                                               JObj [(lit "content", JNull)])]])]))
                some_key [(lit "query", JStr (lit "hello"))] (q := lit "hello") []
                (t1 := [EFindall (lit "hello")]) (ctxs := [])
                (r := mkResponse 200 []
                        (Ok (JObj [(lit "choices",
                                    JArr [JObj [(lit "message",
                                                 JObj [(lit "content", JNull)])]])])))
                (top := [(lit "choices",
                          JArr [JObj [(lit "message", JObj [(lit "content", JNull)])]])])
                ltac:(vm_compute; reflexivity) ltac:(vm_compute; reflexivity)
                ltac:(vm_compute; discriminate) ltac:(vm_compute; reflexivity)
                ltac:(vm_compute; reflexivity) ltac:(vm_compute; reflexivity)
                ltac:(vm_compute; reflexivity)))
             [(lit "message", JObj [(lit "content", JNull)])] []
             [(lit "content", JNull)] JNull);
      try (vm_compute; reflexivity). intros s. discriminate.
Defined.

(** ** What a response and a request look like *)

(** X11. The [meta] of every response to a non-empty query reports the
    mode exactly as the body gave it, whatever JSON value it is, or "auto"
    when the body has none; the links of the query as it was sent; and the
    provider that the configuration selects. *)
Theorem response_meta (w : World) (cfg : Config)
    (fields : list (pystr * json)) (q : pystr) (t t' : trace) (resp : json) :
  lookup (lit "query") fields = Some (JStr q) ->
  strip q <> [] ->
  ask w cfg (JObj fields) t = (Ok resp, t') ->
  meta_field resp "mode"
  = Some (match lookup (lit "mode") fields with
          | Some m => m
          | None => JStr (lit "auto")
          end)
  /\ meta_field resp "urls" = Some (JArr (map JStr (URL_RE.findall q)))
  /\ meta_field resp "provider"
     = Some (JStr (if truthy (OPENAI_API_KEY cfg) then lit "openai-compatible"
                   else lit "fallback-local")).
Proof.
  intros Hq Hs Ha.
  destruct (ask_run w cfg fields t (lookup_dict_get _ _ (JStr []) Hq) Hs)
    as (ctxs & r & _ & _ & Hr & Hm).
  rewrite Ha in Hr. injection Hr as <- _.
  destruct (@ask_run_response _ _ _ _ resp Hm eq_refl) as [answer ->].
  rewrite findall_strip. split; [ | split ].
  - vm_compute. reflexivity.
  - vm_compute. reflexivity.
  - apply answer_body_provider.
Qed.

Lemma response_meta_witness :
  exists resp t',
    ask offline no_key (request (lit " see http://a.b ") (Some (JInt 7))) [] = (Ok resp, t')
    /\ meta_field resp "mode" = Some (JInt 7)
    /\ meta_field resp "urls" = Some (JArr [JStr (lit "http://a.b")])
    /\ meta_field resp "provider" = Some (JStr (lit "fallback-local")).
Proof.
  destruct (ask offline no_key (request (lit " see http://a.b ") (Some (JInt 7))) [])
    as [[resp | e] t'] eqn:E; [ | vm_compute in E; discriminate E ].
  exists resp, t'. split; [ reflexivity | ].
  exact (response_meta offline no_key
           [(lit "query", JStr (lit " see http://a.b ")); (lit "mode", JInt 7)]
           (q := lit " see http://a.b ") []
           ltac:(vm_compute; reflexivity) ltac:(vm_compute; discriminate) E).
Defined.

Lemma posts_fetch_events (urls : list pystr) : posts (fetch_events urls) = [].
Proof. induction urls as [ | u urls IH ]; [ reflexivity | exact IH ]. Qed.

(** X12. A request sends its GETs, at most three, before its POST, sends
    at most one POST, and sends none without a credential: nothing is
    retried and nothing is fetched after the completion was asked for. *)
Theorem requests_in_order (w : World) (cfg : Config)
    (fields : list (pystr * json)) (q : pystr) (t : trace) :
  lookup (lit "query") fields = Some (JStr q) ->
  exists r before after,
    ask w cfg (JObj fields) t = (r, t ++ before ++ after)
    /\ posts before = []
    /\ (List.length (requested before) <= 3)%nat
    /\ requested after = []
    /\ (List.length after <= if truthy (OPENAI_API_KEY cfg) then 1 else 0)%nat.
Proof.
  intros Hq. pose proof (lookup_dict_get fields "query" (JStr []) Hq) as Hd.
  destruct (strip q) as [ | c s ] eqn:Es.
  - exists (Ok PROMPT_FOR_INPUT), [], [].
    split; [ rewrite app_nil_r; apply ask_empty with (q := q); assumption | ].
    repeat split; cbn; lia.
  - assert (Hs : strip q <> []) by (rewrite Es; discriminate).
    destruct (ask_run w cfg fields t Hd Hs) as (ctxs & r & _ & _ & Hr & _).
    set (urls := URL_RE.findall (strip q)) in *.
    set (msgs := build_messages ctxs (mode_of fields) (strip q)) in *.
    exists r, (EFindall (strip q) :: fetch_events (slice_to 3 urls) ++ [ECompletion msgs]),
      (post_events cfg (OPENAI_MODEL cfg) msgs).
    split; [ | split; [ | split; [ | split ] ] ].
    + rewrite Hr. cbn [app]. rewrite <- !app_assoc. reflexivity.
    + unfold posts. cbn [filter is_post]. rewrite filter_app.
      fold (posts (fetch_events (slice_to 3 urls))). rewrite posts_fetch_events.
      reflexivity.
    + cbn [requested]. rewrite requested_app, requested_fetch_events.
      cbn [requested]. rewrite app_nil_r. unfold slice_to.
      rewrite length_firstn. lia.
    + apply requested_post_events.
    + unfold post_events. destruct (truthy (OPENAI_API_KEY cfg)); cbn; lia.
Qed.

Lemma requests_in_order_witness :
  exists r before after,
    ask (online 200) some_key
      (request (lit "http://a/1 http://b/2 http://c/3 http://d/4") None) []
    = (r, before ++ after)
    /\ posts before = []
    /\ (List.length (requested before) <= 3)%nat
    /\ requested after = []
    /\ (List.length after <= 1)%nat.
Proof.
  apply (requests_in_order (online 200) some_key
           [(lit "query", JStr (lit "http://a/1 http://b/2 http://c/3 http://d/4"))]
           (q := lit "http://a/1 http://b/2 http://c/3 http://d/4") []).
  vm_compute. reflexivity.
Defined.

(** ** The size of the keyless answer *)

Lemma lstrip_length (s : pystr) : (List.length (lstrip s) <= List.length s)%nat.
Proof.
  induction s as [ | c s IH ]; [ reflexivity | ].
  cbn [lstrip]. destruct (isspace c); cbn [List.length]; lia.
Qed.

Lemma strip_length (s : pystr) : (List.length (strip s) <= List.length s)%nat.
Proof.
  unfold strip, rstrip. rewrite length_rev.
  pose proof (lstrip_length (rev (lstrip s))) as H1.
  rewrite length_rev in H1. pose proof (lstrip_length s). lia.
Qed.

Lemma join_length_le (sep : pystr) (f : pystr -> pystr) (ls : list pystr) :
  (forall l, (List.length (f l) <= List.length l)%nat) ->
  (List.length (join sep (map f ls)) <= List.length (join sep ls))%nat.
Proof.
  intros Hf. induction ls as [ | x ls IH ]; [ reflexivity | ].
  destruct ls as [ | y ys ]; [ apply Hf | ].
  change (join sep (map f (x :: y :: ys)))
    with (f x ++ sep ++ join sep (map f (y :: ys))).
  change (join sep (x :: y :: ys)) with (x ++ sep ++ join sep (y :: ys)).
  rewrite !length_app. pose proof (Hf x). lia.
Qed.

Lemma dedent_length (s : pystr) :
  (List.length (Textwrap.dedent s) <= List.length s)%nat.
Proof.
  assert (Hsub : (List.length (Textwrap.sub_ws_only s) <= List.length s)%nat).
  { unfold Textwrap.sub_ws_only. rewrite <- (join_lines s) at 2.
    apply join_length_le. intros l. unfold Textwrap.blank_line.
    destruct (Textwrap.is_ws_only l); cbn [List.length]; lia. }
  unfold Textwrap.dedent.
  destruct (fold_left Textwrap.narrow _ None) as [ m | ]; [ | exact Hsub ].
  destruct (truthy m); [ | exact Hsub ].
  etransitivity; [ | exact Hsub ].
  rewrite <- (join_lines (Textwrap.sub_ws_only s)) at 2.
  apply join_length_le. intros l. unfold Textwrap.cut_margin.
  destruct (starts_with m l); [ rewrite length_skipn; lia | lia ].
Qed.

Lemma plan_text_length (u : pystr) : (List.length (plan_text u) <= ANSWER_LIMIT)%nat.
Proof.
  unfold plan_text, ANSWER_LIMIT, slice_to. rewrite !length_app, !length_firstn. lia.
Qed.

(** X13. Without a credential the answer is bounded whatever the length
    of the query: it never has more characters than the literal parts of
    the plan and the two slices of 500 and 200 characters together. *)
Theorem keyless_answer_is_bounded (w : World) (cfg : Config)
    (fields : list (pystr * json)) (q : pystr) (t t' : trace)
    (resp : json) (answer : pystr) :
  OPENAI_API_KEY cfg = [] ->
  lookup (lit "query") fields = Some (JStr q) ->
  ask w cfg (JObj fields) t = (Ok resp, t') ->
  field resp "answer" = Some (JStr answer) ->
  (List.length answer <= ANSWER_LIMIT)%nat /\ ANSWER_LIMIT = 945%nat.
Proof.
  intros Hk Hq Ha Hf. split; [ | vm_compute; reflexivity ].
  pose proof (lookup_dict_get fields "query" (JStr []) Hq) as Hd.
  destruct (strip q) as [ | c s ] eqn:Es.
  - rewrite (ask_empty w cfg fields t Hd Es) in Ha. injection Ha as <- _.
    vm_compute in Hf. injection Hf as <-. vm_compute. lia.
  - assert (Hs : strip q <> []) by (rewrite Es; discriminate).
    destruct (ask_steps w cfg fields t Hd Hs) as (ctxs & _ & _ & Hr).
    rewrite call_openai_keyless in Hr by (rewrite Hk; reflexivity).
    rewrite Ha in Hr. injection Hr as Hr _.
    symmetry in Hr. apply JSONResponse_inv in Hr. subst resp.
    rewrite answer_body_answer in Hf. injection Hf as <-.
    etransitivity; [ apply strip_length | ].
    etransitivity; [ apply dedent_length | apply plan_text_length ].
Qed.

Lemma keyless_answer_is_bounded_witness :
  exists resp t' answer,
    ask offline no_key (request (repeat 97 600) None) [] = (Ok resp, t')
    /\ field resp "answer" = Some (JStr answer)
    /\ (List.length answer <= 945)%nat.
Proof.
  assert (E : exists resp t' answer,
             ask offline no_key (request (repeat 97 600) None) [] = (Ok resp, t')
             /\ field resp "answer" = Some (JStr answer)).
  { eexists _, _, _. split; vm_compute; reflexivity. }
  destruct E as (resp & t' & answer & E & F).
  exists resp, t', answer. split; [ exact E | split; [ exact F | ] ].
  destruct (keyless_answer_is_bounded offline no_key
              [(lit "query", JStr (repeat 97 600))] (q := repeat 97 600) []
              eq_refl ltac:(vm_compute; reflexivity) E F) as [Hb Hl].
  rewrite Hl in Hb. exact Hb.
Defined.

(** ** The article fetcher, seen from the handler *)

(** X14. The string that [fetch_url] returns starts with the placeholder
    prefix exactly when the fetch failed: an article that was fetched
    starts with its title line and is never mistaken for a failure. *)
Theorem placeholder_marks_failure (w : World) (url : pystr) (t t' : trace) (s : pystr) :
  fetch_url w url t = (Ok s, t') ->
  (starts_with FETCH_FAILED_PREFIX s = true
   <-> fetch_failure w url (t ++ [EFetch url]) <> None).
Proof.
  intros H. destruct (fetch_url_outcome w url t) as (s' & Hs & Hm).
  rewrite H in Hs. injection Hs as <- _.
  destruct (fetch_failure w url (t ++ [EFetch url])) as [ e | ].
  - rewrite Hm. split; [ discriminate | intros _; apply starts_with_app ].
  - split; [ | intros C; contradiction ].
    intros Hp. exfalso.
    replace (lit "# ") with [35; 32] in Hm by (vm_compute; reflexivity).
    assert (E : FETCH_FAILED_PREFIX = 40 :: tl FETCH_FAILED_PREFIX)
      by (vm_compute; reflexivity).
    rewrite E in Hp.
    destruct s as [ | c s ]; [ discriminate Hm | ].
    cbn [starts_with] in Hm, Hp.
    apply andb_true_iff in Hm as [Hm _]. apply andb_true_iff in Hp as [Hp _].
    apply N.eqb_eq in Hm, Hp. congruence.
Qed.

Lemma placeholder_marks_failure_witness :
  starts_with FETCH_FAILED_PREFIX (fetch_result (online 200) (lit "http://a.b")) = false
  /\ starts_with FETCH_FAILED_PREFIX (fetch_result not_found (lit "http://a.b")) = true.
Proof.
  split.
  - apply not_true_iff_false. intros Hp.
    apply (placeholder_marks_failure (online 200) (lit "http://a.b") []
             (t' := [EFetch (lit "http://a.b"); EGet (lit "http://a.b")])
             (s := fetch_result (online 200) (lit "http://a.b"))) in Hp.
    + apply Hp. reflexivity.
    + vm_compute. reflexivity.
  - apply (placeholder_marks_failure not_found (lit "http://a.b") []
             (t' := [EFetch (lit "http://a.b"); EGet (lit "http://a.b")])
             (s := fetch_result not_found (lit "http://a.b"))).
    + vm_compute. reflexivity.
    + vm_compute. discriminate.
Defined.

Lemma fetch_url_history_free (w : World) (url : pystr) (t : trace) :
  history_free w ->
  fetch_url w url t = (Ok (fetch_result w url), t ++ [EFetch url; EGet url]).
Proof.
  intros Hw. unfold fetch_result.
  unfold fetch_url, bind, emit, try_except, session_get, raise_for_status, ret, lift.
  rewrite <- app_assoc. cbn [app fst].
  rewrite (Hw (t ++ [EFetch url]) [EFetch url] url).
  destruct (net_get w [EFetch url] url) as [ r | e ]; cbn [fst]; [ | reflexivity ].
  destruct (is_success r); cbn [fst]; [ | reflexivity ].
  destruct (doc_short_title w (text r)); cbn [fst]; [ | reflexivity ].
  destruct (doc_summary w (text r)); cbn [fst]; [ | reflexivity ].
  destruct (soup_get_text w _); cbn [fst]; [ | reflexivity ].
  destruct (md w _); cbn [fst]; reflexivity.
Qed.

Lemma gather_history_free (w : World) (urls : list pystr) :
  history_free w ->
  forall t, gather (map (fetch_url w) urls) t
            = (Ok (map (fetch_result w) urls), t ++ fetch_events urls).
Proof.
  intros Hw. induction urls as [ | u urls IH ]; intros t.
  - cbn. unfold ret. rewrite app_nil_r. reflexivity.
  - cbn [map gather]. unfold bind at 1. rewrite (@fetch_url_history_free w u t Hw).
    unfold bind at 1. rewrite IH. unfold ret. rewrite <- app_assoc. reflexivity.
Qed.

(** X15. When the network answers a GET the same way whatever was
    requested before, the contexts of a request are the results of
    fetching its first three links one by one, in the order of the links:
    each context depends on its own link only, and a link that occurs
    twice is fetched twice. *)
Theorem contexts_aligned_with_links (w : World) (urls : list pystr) (t : trace) :
  history_free w ->
  gather_contexts w urls t
  = (Ok (map (fetch_result w) (slice_to 3 urls)), t ++ fetch_events (slice_to 3 urls)).
Proof.
  intros Hw. unfold gather_contexts. destruct urls as [ | u urls ].
  - cbn. unfold ret. rewrite app_nil_r. reflexivity.
  - cbn [truthy]. apply gather_history_free, Hw.
Qed.

Lemma contexts_aligned_with_links_witness :
  gather_contexts (online 200)
    [lit "http://a/1"; lit "http://b/2"; lit "http://a/1"; lit "http://c/3"] []
  = (Ok [ fetch_result (online 200) (lit "http://a/1");
          fetch_result (online 200) (lit "http://b/2");
          fetch_result (online 200) (lit "http://a/1") ],
     [ EFetch (lit "http://a/1"); EGet (lit "http://a/1");
       EFetch (lit "http://b/2"); EGet (lit "http://b/2");
       EFetch (lit "http://a/1"); EGet (lit "http://a/1") ]).
Proof.
  apply (@contexts_aligned_with_links (online 200)
           [lit "http://a/1"; lit "http://b/2"; lit "http://a/1"; lit "http://c/3"] []).
  intros h h' url. reflexivity.
Defined.

(** ** The keyless echo *)

Lemma first_user_content_skips (before rest : list Message) (c : pystr) :
  Forall (fun m => msg_role m = System) before ->
  first_user_content (before ++ mkMessage User c :: rest) = c.
Proof.
  induction 1 as [ | m before Hm _ IH ]; [ reflexivity | ].
  cbn [app first_user_content]. rewrite Hm. exact IH.
Qed.

Lemma first_user_content_none (msgs : list Message) :
  Forall (fun m => msg_role m = System) msgs -> first_user_content msgs = [].
Proof.
  induction 1 as [ | m msgs Hm _ IH ]; [ reflexivity | ].
  cbn [first_user_content]. rewrite Hm. exact IH.
Qed.

(** X16. Without a credential the completion client answers from the
    first user message alone: system messages before it and anything
    after it change nothing, and when there is no user message at all the
    answer is the plan with two empty echoes. *)
Theorem keyless_echo_reads_first_user_message (w : World) (cfg : Config)
    (before rest : list Message) (c model : pystr) (t : trace) :
  OPENAI_API_KEY cfg = [] ->
  Forall (fun m => msg_role m = System) before ->
  fst (call_openai w cfg (before ++ mkMessage User c :: rest) model t)
  = fst (call_openai w cfg [mkMessage User c] model t)
  /\ fst (call_openai w cfg before model t)
     = Ok (ANSWER_HEAD ++ ANSWER_MID ++ ANSWER_TAIL).
Proof.
  intros Hk Hb.
  assert (Hk' : truthy (OPENAI_API_KEY cfg) = false) by (rewrite Hk; reflexivity).
  rewrite !call_openai_keyless by exact Hk'. cbn [fst].
  rewrite (@first_user_content_skips before rest c Hb).
  rewrite (@first_user_content_none before Hb).
  cbn [first_user_content msg_role content].
  split; [ reflexivity | vm_compute; reflexivity ].
Qed.

Lemma keyless_echo_reads_first_user_message_witness :
  fst (call_openai offline no_key
         [persona; mkMessage User (lit "one"); mkMessage User (lit "two")]
         (lit "gpt-4o-mini") [])
  = fst (call_openai offline no_key [mkMessage User (lit "one")] (lit "gpt-4o-mini") []).
Proof.
  apply (@keyless_echo_reads_first_user_message offline no_key
           [persona] [mkMessage User (lit "two")] (lit "one") (lit "gpt-4o-mini") []).
  - reflexivity.
  - repeat constructor.
Defined.

(** X17. When the non-empty query holds at most three links, each of them
    is fetched, once per occurrence and in order of appearance: the calls
    of [fetch_url] and the GET requests are the links of the query. *)
Theorem up_to_three_links_all_fetched (w : World) (cfg : Config)
    (fields : list (pystr * json)) (q : pystr) (t : trace) :
  lookup (lit "query") fields = Some (JStr q) ->
  strip q <> [] ->
  (List.length (URL_RE.findall q) <= 3)%nat ->
  exists r done,
    ask w cfg (JObj fields) t = (r, t ++ done)
    /\ fetched done = URL_RE.findall q
    /\ requested done = URL_RE.findall q.
Proof.
  intros Hq Hs Hl.
  destruct (ask_links w cfg fields t Hq Hs) as (r & done & Ha & Hf & Hg & _).
  rewrite findall_strip in Hf, Hg. unfold slice_to in Hf, Hg.
  rewrite firstn_all2 in Hf, Hg by exact Hl.
  exists r, done. split; [ exact Ha | split; assumption ].
Qed.

Lemma up_to_three_links_all_fetched_witness :
  exists r done,
    ask offline no_key (request (lit "http://a/1 then http://a/1 ") None) [] = (r, done)
    /\ fetched done = [lit "http://a/1"; lit "http://a/1"]
    /\ requested done = [lit "http://a/1"; lit "http://a/1"].
Proof.
  apply (up_to_three_links_all_fetched offline no_key
           [(lit "query", JStr (lit "http://a/1 then http://a/1 "))]
           (q := lit "http://a/1 then http://a/1 ") []).
  - vm_compute. reflexivity.
  - vm_compute. discriminate.
  - vm_compute. lia.
Defined.

Lemma dedent_flush_line (A L B : pystr) :
  existsb flush_left (lines (Textwrap.sub_ws_only L)) = true ->
  Textwrap.dedent (A ++ NL :: L ++ NL :: B)
  = Textwrap.sub_ws_only (A ++ NL :: L ++ NL :: B).
Proof.
  intros H. apply dedent_flush.
  rewrite !sub_ws_only_app_nl, !lines_app_nl, !existsb_app, H.
  rewrite orb_true_l, orb_true_r. reflexivity.
Qed.

Lemma plan_split (O u5 L M u2 C : pystr) :
  O ++ u5 ++ (NL :: NL :: L ++ NL :: M) ++ u2 ++ C
  = (O ++ u5 ++ [NL]) ++ NL :: L ++ NL :: (M ++ u2 ++ C).
Proof.
  rewrite <- !app_assoc. cbn [app]. rewrite <- !app_assoc. reflexivity.
Qed.

(** X18. In the keyless branch [textwrap.dedent] never removes any
    indentation: the plan always has a line that starts at the margin, so
    for every user message the result is the plan with nothing changed
    but its lines of spaces and tabs emptied. *)
Theorem dedent_keeps_plan_margin (user : pystr) :
  Textwrap.dedent (plan_text user) = Textwrap.sub_ws_only (plan_text user).
Proof.
  assert (E : exists M,
             PLAN_MIDDLE = NL :: NL :: lit "خطة إجابة عامة:" ++ NL :: M)
    by (exists (skipn 18 PLAN_MIDDLE); vm_compute; reflexivity).
  destruct E as [M E].
  unfold plan_text. rewrite E, plan_split.
  apply dedent_flush_line. vm_compute. reflexivity.
Qed.

(* ================================================================== *)
(** * Rendering the response *)

(** ** When [JSONResponse] succeeds *)















(** ** What the handler puts in a response can be encoded when the query can *)























(** C10. A body without a [query] field is handled exactly like one with
    an empty query: the fixed prompt-for-input body, nothing else done.
    A query string is stripped first, and only its stripped form is used:
    the stripped query is the query without the whitespace before and
    after it, the request behaves as if the stripped query had been sent,
    the stripped query neither starts nor ends with whitespace, the links
    found in it hold no whitespace, and the user message built from it
    neither starts nor ends with whitespace. *)
Theorem query_stripped_before_use (w : World) (cfg : Config)
    (fields : list (pystr * json)) (t : trace) :
  (lookup (lit "query") fields = None ->
   ask w cfg (JObj fields) t = (Ok PROMPT_FOR_INPUT, t)
   /\ ask w cfg (JObj fields) t = ask w cfg (JObj (with_query [] fields)) t)
  /\ (forall q,
        lookup (lit "query") fields = Some (JStr q) ->
        let query := strip q in
        let mode := mode_of fields in
        (exists before after,
           q = before ++ query ++ after
           /\ forallb isspace before = true /\ forallb isspace after = true)
        /\ ask w cfg (JObj fields) t = ask w cfg (JObj (with_query query fields)) t
        /\ no_leading_space query = true
        /\ no_trailing_space query = true
        /\ Forall (fun u => no_space u = true) (URL_RE.findall query)
        /\ ((query = [] /\ ask w cfg (JObj fields) t = (Ok PROMPT_FOR_INPUT, t))
            \/ (query <> []
                /\ no_leading_space (user_content mode query) = true
                /\ no_trailing_space (user_content mode query) = true
                /\ exists ctxs r,
                     ask w cfg (JObj fields) t
                     = (r, t ++ EFindall query
                             :: fetch_events (slice_to 3 (URL_RE.findall query))
                             ++ ECompletion (build_messages ctxs mode query)
                             :: post_events cfg (OPENAI_MODEL cfg)
                                  (build_messages ctxs mode query))))).
Proof.
  split.
  - intros Hq.
    pose proof (lookup_absent_dict_get fields "query" (JStr []) Hq) as Hd.
    assert (Ha : ask w cfg (JObj fields) t = (Ok PROMPT_FOR_INPUT, t))
      by (apply ask_empty with (q := []); [ exact Hd | reflexivity ]).
    split; [ exact Ha | ].
    apply ask_same_query with (q1 := []) (q2 := []).
    + exact Hd.
    + apply dict_get_with_query.
    + reflexivity.
    + symmetry. apply mode_of_with_query.
  - intros q Hq query mode.
    pose proof (lookup_dict_get fields "query" (JStr []) Hq) as Hd.
    split; [ | split; [ | split; [ | split; [ | split ] ] ] ].
    + destruct (lstrip_split q) as (ws1 & E1 & H1).
      destruct (rstrip_split (lstrip q)) as (ws2 & E2 & H2).
      exists ws1, ws2. split; [ | split; assumption ].
      fold (strip q) in E2. fold query in E2. rewrite <- E2. exact E1.
    + apply ask_same_query with (q1 := q) (q2 := query).
      * exact Hd.
      * apply dict_get_with_query.
      * symmetry. apply strip_idempotent.
      * symmetry. apply mode_of_with_query.
    + apply strip_no_leading.
    + apply strip_no_trailing.
    + apply findall_no_space.
    + destruct query as [ | c rest ] eqn:E.
      * left. split; [ reflexivity | ].
        apply ask_empty with (q := q); assumption.
      * right. rewrite <- E.
        assert (Hne : query <> []) by (subst query; rewrite E; discriminate).
        destruct (user_content_edges mode Hne (strip_no_leading q) (strip_no_trailing q))
          as [Hl Ht].
        split; [ exact Hne | split; [ exact Hl | split; [ exact Ht | ] ] ].
        destruct (ask_run w cfg fields t Hd Hne) as (ctxs & r & _ & _ & Ha & _).
        exists ctxs, r. exact Ha.
Qed.

Lemma query_stripped_before_use_witness :
  ask offline no_key (JObj [(lit "mode", JStr (lit "code"))]) [] = (Ok PROMPT_FOR_INPUT, [])
  /\ (exists before after,
        lit "  hi" ++ [NL] = before ++ strip (lit "  hi" ++ [NL]) ++ after
        /\ forallb isspace before = true /\ forallb isspace after = true)
  /\ ask offline no_key (request (lit "  hi" ++ [NL]) None) []
     = ask offline no_key (request (lit "hi") None) [].
Proof.
  pose proof (proj2 (query_stripped_before_use offline no_key
                       [(lit "query", JStr (lit "  hi" ++ [NL]))] [])
                (lit "  hi" ++ [NL]) ltac:(vm_compute; reflexivity)) as H.
  split; [ | split ].
  - apply (query_stripped_before_use offline no_key
             [(lit "mode", JStr (lit "code"))] []).
    vm_compute. reflexivity.
  - exact (proj1 H).
  - exact (proj1 (proj2 H)).
Defined.





(** ** The rendering at work *)

Example surrogate_query_is_not_rendered :
  fst (ask offline no_key (request (lit "a" ++ [55296] ++ lit "b") None) [])
  = Raise (mkExn "UnicodeEncodeError"
             (lit "'utf-8' codec can't encode character '\ud800' in position 71: surrogates not allowed")).
Proof. vm_compute. reflexivity. Qed.

Example nan_mode_is_not_rendered :
  exists e,
    fst (ask offline no_key (request (lit "hello") (Some (JFloat NaN))) []) = Raise e
    /\ exn_class e = "ValueError"%string.
Proof. eexists. split; vm_compute; reflexivity. Qed.
